(** * Click analytics service: ingestion, access control and aggregation

    A shallow embedding of the analytics service
    (services/analytics-service/src: routes.js, middleware/auth.js,
    middleware/rateLimit.js, utils/geolocation.js, config.js and
    models/Click.js) and the properties its specification states.

    Conventions.  A JavaScript string is a [string] whose characters are
    code units below 256.  [undefined] and [null] of an optional string
    are both [None].  An integer-valued JavaScript number is a [Z]; the
    result of [parseInt] is a [jsnum], which adds [NaN].  Timestamps are
    milliseconds since the epoch, in [Z].  Objects used as dictionaries
    (headers, query, body, environment) are [gmap string string]. *)

From Stdlib Require Import ZArith QArith Ascii String List Lia DecimalString Sorted.
From Stdlib Require Import DecimalPos DecimalZ.
From stdpp Require Import base option gmap strings list sorting.

Local Open Scope Z_scope.
Local Open Scope string_scope.

(** ** JavaScript primitives used by the service *)

Module JS.

(** [!s] for an optional string: [undefined], [null] and the empty string are falsy. *)
Definition falsy (o : option string) : bool :=
  match o with
  | None => true
  | Some s => if decide (s = EmptyString) then true else false
  end.

(** [a || b] on optional strings. *)
Definition or_else (a b : option string) : option string :=
  if falsy a then b else a.

(** [a || null] on optional strings: a falsy value becomes [null]. *)
Definition or_null (a : option string) : option string := or_else a None.

(** [x || null] on an optional number: [0] (and [undefined]) become [null]. *)
Definition num_or_null (a : option Q) : option Q :=
  match a with
  | Some q => if Qeq_bool q 0 then None else Some q
  | None => None
  end.

(** [s.startsWith(p)] *)
Fixpoint startsWith (p s : string) : bool :=
  match p, s with
  | EmptyString, _ => true
  | String a p', String b s' => if decide (a = b) then startsWith p' s' else false
  | String _ _, EmptyString => false
  end.

(** [s.split(c)] for a one-character separator: never the empty list. *)
Fixpoint split (c : ascii) (s : string) : list string :=
  match s with
  | EmptyString => [EmptyString]
  | String a s' =>
      if decide (a = c) then EmptyString :: split c s'
      else match split c s' with
           | w :: ws => String a w :: ws
           | [] => [String a EmptyString]
           end
  end.

(** Numbers as [parseInt] and [Math.min] produce them. *)
Inductive jsnum := JNaN | JInt (z : Z).

(** A value that is either a string (from the query string) or a number
    (a destructuring default). *)
Inductive jsval := VStr (s : string) | VNum (z : Z).

Definition ToString (v : jsval) : string :=
  match v with
  | VStr s => s
  | VNum z => NilZero.string_of_int (Z.to_int z)
  end.

(** White space skipped by [parseInt]: TAB, LF, VT, FF, CR, SP, NBSP. *)
Definition is_white (c : ascii) : bool :=
  let n := nat_of_ascii c in
  (Nat.eqb n 9 || Nat.eqb n 10 || Nat.eqb n 11 || Nat.eqb n 12
   || Nat.eqb n 13 || Nat.eqb n 32 || Nat.eqb n 160)%bool.

Fixpoint skip_white (s : string) : string :=
  match s with
  | String c s' => if is_white c then skip_white s' else s
  | EmptyString => EmptyString
  end.

Definition digit (c : ascii) : option Z :=
  let n := Z.of_nat (nat_of_ascii c) in
  if (Z.leb 48 n && Z.leb n 57)%bool then Some (n - 48) else None.

(** The longest prefix of decimal digits, as a number; [None] when the
    prefix is empty. *)
Fixpoint digits (seen : bool) (acc : Z) (s : string) : option Z :=
  match s with
  | String c s' =>
      match digit c with
      | Some d => digits true (acc * 10 + d) s'
      | None => if seen then Some acc else None
      end
  | EmptyString => if seen then Some acc else None
  end.

(** [parseInt(v, 10)]: white space, an optional sign, then digits; [NaN]
    when no digit follows.  The result is the integer that the digits
    write; the code's number is the double nearest to it, the same integer
    whenever it is below 2^53 in absolute value. *)
Definition parseInt (v : jsval) : jsnum :=
  let s := skip_white (ToString v) in
  let '(sign, body) :=
    match s with
    | String "-" r => (-1, r)
    | String "+" r => (1, r)
    | _ => (1, s)
    end in
  match digits false 0 body with
  | Some n => JInt (sign * n)
  | None => JNaN
  end.

(** [Math.min(a, b)] with [b] an integer constant. *)
Definition Math_min (a : jsnum) (b : Z) : jsnum :=
  match a with
  | JNaN => JNaN
  | JInt z => JInt (Z.min z b)
  end.

(** [new Date(t)], as its time value: a date holds a whole number of
    milliseconds within 8.64e15 of the epoch, and is invalid ([NaN])
    for [NaN] and for anything beyond. *)
Definition new_Date (t : jsnum) : jsnum :=
  match t with
  | JInt z => if Z.leb (Z.abs z) 8640000000000000 then JInt z else JNaN
  | JNaN => JNaN
  end.

(** Completion of a call: a value, or a thrown [Error] with its [name]. *)
Inductive completion (A : Type) :=
| Normal (a : A)
| Throw (name : string).
Arguments Normal {A} a.
Arguments Throw {A} name.

(** [try { body } catch (error) { handler(error.name) }] *)
Definition try_catch {A} (body : completion A) (handler : string -> completion A)
  : completion A :=
  match body with
  | Normal a => Normal a
  | Throw name => handler name
  end.

End JS.

(** ** Regular expressions of [isPrivateIP]

    The seven literals all start with [^]; two end with [$]; two carry the
    [i] flag.  Matching is by derivatives. *)

Module Regex.

Inductive re :=
| Void
| Eps
| Chr (c : ascii)
| Rng (lo hi : ascii)
| Seq (r1 r2 : re)
| Alt (r1 r2 : re).

Fixpoint lit (s : string) : re :=
  match s with
  | EmptyString => Eps
  | String c s' => Seq (Chr c) (lit s')
  end.

(** A literal [/^pat/], [/^pat$/], with or without the [i] flag. *)
Record regex := { pat : re; dollar : bool; ignoreCase : bool }.

(** Case folding of the [i] flag, on ASCII letters. *)
Definition fold_case (c : ascii) : ascii :=
  let n := nat_of_ascii c in
  if (Nat.leb 97 n && Nat.leb n 122)%bool then ascii_of_nat (n - 32) else c.

Definition chr_eq (i : bool) (a b : ascii) : bool :=
  if i then Ascii.eqb (fold_case a) (fold_case b) else Ascii.eqb a b.

(** A class range such as [[6-9]]; the literals with the [i] flag have
    none, so ranges are compared as written. *)
Definition in_rng (lo hi c : ascii) : bool :=
  (Nat.leb (nat_of_ascii lo) (nat_of_ascii c)
   && Nat.leb (nat_of_ascii c) (nat_of_ascii hi))%bool.

Fixpoint nullable (r : re) : bool :=
  match r with
  | Eps => true
  | Seq a b => nullable a && nullable b
  | Alt a b => nullable a || nullable b
  | _ => false
  end.

Fixpoint deriv (i : bool) (c : ascii) (r : re) : re :=
  match r with
  | Void | Eps => Void
  | Chr d => if chr_eq i c d then Eps else Void
  | Rng lo hi => if in_rng lo hi c then Eps else Void
  | Seq a b =>
      if nullable a then Alt (Seq (deriv i c a) b) (deriv i c b)
      else Seq (deriv i c a) b
  | Alt a b => Alt (deriv i c a) (deriv i c b)
  end.

(** Does [r] match a prefix of [s] (the whole of [s] under [$])? *)
Fixpoint matches (i d : bool) (r : re) (s : string) : bool :=
  match s with
  | EmptyString => nullable r
  | String c s' =>
      if (nullable r && negb d)%bool then true
      else matches i d (deriv i c r) s'
  end.

(** [regex.test(s)] *)
Definition test (x : regex) (s : string) : bool :=
  matches (ignoreCase x) (dollar x) (pat x) s.

End Regex.

(** ** utils/geolocation.js *)

Module Geolocation.
Import JS Regex.

(** The part of the database's answer that [lookupIP] reads; a path that
    optional chaining finds missing is [None]. *)
Record CityResponse := {
  country_names_en : option string;
  country_isoCode : option string;
  city_names_en : option string;
  subdivisions_0_names_en : option string;
  location_latitude : option Q;
  location_longitude : option Q;
  location_timeZone : option string
}.

(** [reader.city]: answers, or throws ([AddressNotFoundError] when the
    address is not in the database). *)
Definition Reader := string -> completion CityResponse.

Record GeoData := {
  country : option string;
  countryCode : option string;
  city : option string;
  region : option string;
  latitude : option Q;
  longitude : option Q;
  timezone : option string
}.

(** Module state: [reader] and [isInitialized]. *)
Record State := { reader : option Reader; isInitialized : bool }.

Definition initial : State := {| reader := None; isInitialized := false |}.

(** [initGeoIP]: [imported] is the outcome of the dynamic import,
    [exists] of [fs.existsSync], [opened] of [Reader.open]. *)
Definition initGeoIP (imported : bool) (exists_ : bool)
    (opened : completion Reader) (st : State) : State :=
  if imported then
    if exists_ then
      match opened with
      | Normal r => {| reader := Some r; isInitialized := true |}
      | Throw _ => {| reader := reader st; isInitialized := true |}
      end
    else {| reader := reader st; isInitialized := true |}
  else {| reader := reader st; isInitialized := true |}.

(** The array [privateRanges], in the order of the source:
    [/^10\./], [/^172\.(1[6-9]|2[0-9]|3[0-1])\./], [/^192\.168\./],
    [/^127\./], [/^localhost$/i], [/^::1$/], [/^fe80:/i]. *)
Definition privateRanges : list regex :=
  [ {| pat := lit "10."; dollar := false; ignoreCase := false |};
    {| pat := Seq (lit "172.")
                (Seq (Alt (Seq (Chr "1") (Rng "6" "9"))
                       (Alt (Seq (Chr "2") (Rng "0" "9"))
                            (Seq (Chr "3") (Rng "0" "1"))))
                     (Chr "."));
       dollar := false; ignoreCase := false |};
    {| pat := lit "192.168."; dollar := false; ignoreCase := false |};
    {| pat := lit "127."; dollar := false; ignoreCase := false |};
    {| pat := lit "localhost"; dollar := true; ignoreCase := true |};
    {| pat := lit "::1"; dollar := true; ignoreCase := false |};
    {| pat := lit "fe80:"; dollar := false; ignoreCase := true |} ].

(** [isPrivateIP]: true for a missing address and when some expression of
    [privateRanges] matches. *)
Definition isPrivateIP (ip : option string) : bool :=
  if falsy ip then true
  else match ip with
       | Some s => existsb (fun x => test x s) privateRanges
       | None => true
       end.

Definition geo_of_response (r : CityResponse) : GeoData :=
  {| country := or_null (country_names_en r);
     countryCode := or_null (country_isoCode r);
     city := or_null (city_names_en r);
     region := or_null (subdivisions_0_names_en r);
     latitude := num_or_null (location_latitude r);
     longitude := num_or_null (location_longitude r);
     timezone := or_null (location_timeZone r) |}.

(** [lookupIP].  The [console.warn] of the catch block is not part of
    the result and is left out. *)
Definition lookupIP (st : State) (ipAddress : option string)
  : completion (option GeoData) :=
  match reader st, ipAddress with
  | None, _ | _, None => Normal None
  | Some rd, Some ip =>
      if falsy ipAddress then Normal None
      else if isPrivateIP ipAddress then Normal None
      else
        try_catch
          (match rd ip with
           | Normal response => Normal (Some (geo_of_response response))
           | Throw name => Throw name
           end)
          (fun _ => Normal None)
  end.

Definition isGeoIPAvailable (st : State) : bool :=
  match reader st with Some _ => true | None => false end.

End Geolocation.

(** ** models/Click.js and the click collection *)

Module Store.
Import JS.

(** A click document.  [_id] is the identifier assigned at construction;
    every optional field defaults to [null]. *)
Record Click := {
  _id : nat;
  shortCode : string;
  originalUrl : string;
  timestamp : Z;
  userAgent : option string;
  referer : option string;
  ipAddress : option string;
  country : option string;
  countryCode : option string;
  city : option string;
  region : option string;
  latitude : option Q;
  longitude : option Q;
  timezone : option string
}.

(** The collection.  [online = false] stands for a database that rejects
    every operation (the handlers' catch blocks answer 500). *)
Record Db := { docs : list Click; next_id : nat; online : bool }.

(** A database operation: [None] when it is rejected. *)
Definition guard {A} (d : Db) (a : A) : option A :=
  if online d then Some a else None.

Section Sorting.
Context {A : Type} (le : A -> A -> bool).

Fixpoint insert_by (x : A) (l : list A) : list A :=
  match l with
  | [] => [x]
  | y :: l' => if le x y then x :: l else y :: insert_by x l'
  end.

Definition sort_by (l : list A) : list A := foldr insert_by [] l.
End Sorting.

Section Grouping.
Context {K : Type} `{EqDecision K}.

Fixpoint bump (k : K) (acc : list (K * nat)) : list (K * nat) :=
  match acc with
  | [] => [(k, 1%nat)]
  | (k', n) :: rest =>
      if decide (k = k') then (k', S n) :: rest else (k', n) :: bump k rest
  end.

(** [$group] with [count: { $sum: 1 }]: one entry per distinct key. *)
Definition group_count (ks : list K) : list (K * nat) :=
  fold_left (fun acc k => bump k acc) ks [].
End Grouping.

(** Filters of the queries. *)
Definition by_code (code : string) (c : Click) : bool :=
  if decide (shortCode c = code) then true else false.

(** [{ shortCode, timestamp: { $gte: since } }] *)
Definition by_code_since (code : string) (since : Z) (c : Click) : bool :=
  (by_code code c && Z.leb since (timestamp c))%bool.

(** [{ $ne: null }] *)
Definition has (o : option string) : bool :=
  match o with Some _ => true | None => false end.

(** [Click.countDocuments(filter)] *)
Definition countDocuments (d : Db) (f : Click -> bool) : option nat :=
  guard d (length (filter (fun c => f c = true) (docs d))).

(** Newest first: [.sort({ timestamp: -1 })]. *)
Definition newest_first (l : list Click) : list Click :=
  sort_by (fun a b => Z.leb (timestamp b) (timestamp a)) l.

(** [Click.findOne({ shortCode }).sort({ timestamp: -1 }).select('timestamp')]:
    the timestamp of the newest document, [null] when there is none. *)
Definition findOne_newest (d : Db) (code : string) : option (option Z) :=
  guard d (timestamp <$> head (newest_first (filter (fun c => by_code code c = true) (docs d)))).

(** The projection ['timestamp userAgent referer country city']. *)
Record HistoryItem := {
  h_id : nat;
  h_timestamp : Z;
  h_userAgent : option string;
  h_referer : option string;
  h_country : option string;
  h_city : option string
}.

Definition select_history (c : Click) : HistoryItem :=
  {| h_id := _id c; h_timestamp := timestamp c; h_userAgent := userAgent c;
     h_referer := referer c; h_country := country c; h_city := city c |}.

(** [.skip(n)] as the database applies it: a negative or non-numeric
    value is rejected. *)
Definition skip (n : jsnum) (l : list Click) : option (list Click) :=
  match n with
  | JInt z => if Z.leb 0 z then Some (drop (Z.to_nat z) l) else None
  | JNaN => None
  end.

(** [.limit(n)] as the database applies it: [0] means no limit, a
    negative value limits to its absolute value, a non-numeric value is
    rejected. *)
Definition limit (n : jsnum) (l : list Click) : option (list Click) :=
  match n with
  | JInt z => if Z.eqb z 0 then Some l else Some (take (Z.to_nat (Z.abs z)) l)
  | JNaN => None
  end.

(** [Click.find({ shortCode }).sort({ timestamp: -1 }).skip(s).limit(n).select(..)] *)
Definition find_page (d : Db) (code : string) (s n : jsnum) : option (list HistoryItem) :=
  if online d then
    match skip s (newest_first (filter (fun c => by_code code c = true) (docs d))) with
    | Some l1 =>
        match limit n l1 with
        | Some l2 => Some (select_history <$> l2)
        | None => None
        end
    | None => None
    end
  else None.

(** The calendar day (UTC) of a timestamp, as a day number.  The
    [$dateToString] format ['%Y-%m-%d'] renders this number; grouping
    and ascending order by the rendered text and by the number agree. *)
Definition day_of (t : Z) : Z := t / 86400000.

(** The daily pipeline: [$match], [$group] by day, [$sort] ascending. *)
Definition aggregate_daily (d : Db) (code : string) (startDate : Z)
  : option (list (Z * nat)) :=
  guard d
    (sort_by (fun a b => Z.leb (fst a) (fst b))
       (group_count
          (day_of ∘ timestamp <$>
             filter (fun c => by_code_since code startDate c = true) (docs d)))).

(** A pipeline of the geographic breakdown: [$match] on a non-null
    field, [$group] on a pair, [$sort] by descending count, [$limit]. *)
Definition aggregate_top (d : Db) (code : string) (fld : Click -> option string)
    (key : Click -> option string * option string) (top : nat)
  : option (list (option string * option string * nat)) :=
  guard d
    (take top
       (sort_by (fun a b => Nat.leb (snd b) (snd a))
          (group_count
             (key <$> filter (fun c => (by_code code c && has (fld c))%bool = true)
                        (docs d))))).

(** [new Click(fields)] followed by [click.save()]. *)
Definition save (d : Db) (mk : nat -> Click) : option (Click * Db) :=
  guard d (mk (next_id d),
           {| docs := docs d ++ [mk (next_id d)];
              next_id := S (next_id d);
              online := online d |}).

End Store.

(** ** Requests and responses *)

Module Http.
Import JS Store.

(** [req.user] *)
Record User := { userId : option string }.

(** The parts of an Express request the service reads.  Header names are
    lower-case, as Node delivers them. *)
Record Request := {
  headers : gmap string string;
  socket_remoteAddress : option string;
  params_shortCode : string;
  query : gmap string string;
  body : gmap string string;
  isInternalService : bool;
  user : option User
}.

Definition set_isInternalService (req : Request) : Request :=
  {| headers := headers req; socket_remoteAddress := socket_remoteAddress req;
     params_shortCode := params_shortCode req; query := query req;
     body := body req; isInternalService := true; user := user req |}.

Definition set_user (u : User) (req : Request) : Request :=
  {| headers := headers req; socket_remoteAddress := socket_remoteAddress req;
     params_shortCode := params_shortCode req; query := query req;
     body := body req; isInternalService := isInternalService req;
     user := Some u |}.

(** [req.user = null] *)
Definition clear_user (req : Request) : Request :=
  {| headers := headers req; socket_remoteAddress := socket_remoteAddress req;
     params_shortCode := params_shortCode req; query := query req;
     body := body req; isInternalService := isInternalService req;
     user := None |}.

(** Bodies of the JSON responses. *)
Inductive Body :=
| Error (error : string)
| Tracked (message : string) (clickId : nat)
| Stats (shortCode : string) (totalClicks last24Hours last7Days : nat)
    (lastClickAt : option Z)
| History (shortCode : string) (total : nat) (limit offset : jsnum)
    (clicks : list HistoryItem)
| Daily (shortCode : string) (days : jsnum) (data : list (Z * nat))
| Geo (shortCode : string) (totalClicks totalWithLocation : nat)
    (countries cities : list (option string * option string * nat)).

Record Response := { status : Z; json : Body }.

(** What a middleware does: call [next()] with the request as it left
    it, or answer. *)
Inductive Outcome :=
| Next (req : Request)
| Respond (res : Response).

(** *** [req.ip]

    Express computes [req.ip] from the socket address and the
    [X-Forwarded-For] header, according to the [trust proxy] setting. *)

Fixpoint trim_left (s : string) : string :=
  match s with
  | String " " s' => trim_left s'
  | _ => s
  end.

Fixpoint trim_right (s : string) : string :=
  match s with
  | EmptyString => EmptyString
  | String c s' =>
      match trim_right s' with
      | EmptyString => if decide (c = " "%char) then EmptyString else String c EmptyString
      | t => String c t
      end
  end.

Definition nonempty (s : string) : bool :=
  match s with EmptyString => false | _ => true end.

(** The addresses of a forwarded-for header, left to right: the
    comma-separated entries without their surrounding spaces, empty
    entries dropped. *)
Definition forwarded_entries (header : string) : list string :=
  filter (fun s => nonempty s = true) ((trim_right ∘ trim_left) <$> split "," header).

(** The address chain: the socket address, then the header's entries from
    the nearest proxy to the farthest client. *)
Definition forwarded (req : Request) : list (option string) :=
  socket_remoteAddress req
    :: (Some <$> rev (forwarded_entries
                       (default EmptyString (or_null (headers req !! "x-forwarded-for"))))).

(** With every hop trusted the client is the last address of the chain;
    with none trusted it is the socket address. *)
Definition proxyaddr (trust : bool) (req : Request) : option string :=
  if trust then List.last (forwarded req) None else socket_remoteAddress req.

(** [app.set('trust proxy', true)] *)
Definition trust_proxy : bool := true.

Definition ip (req : Request) : option string := proxyaddr trust_proxy req.

End Http.

(** ** config.js *)

Module Config.
Import JS.

Record t := { jwtSecret : string; internalApiKey : string; geoipDbPath : string }.

(** [process.env.NAME || fallback] *)
Definition env_or (env : gmap string string) (name fallback : string) : string :=
  default fallback (or_null (env !! name)).

Definition config (env : gmap string string) : t :=
  {| jwtSecret := env_or env "JWT_SECRET" "your-super-secret-jwt-key-change-in-production";
     internalApiKey :=
       env_or env "INTERNAL_API_KEY" "internal-service-key-change-in-production";
     geoipDbPath := env_or env "GEOIP_DB_PATH" "/app/data/GeoLite2-City.mmdb" |}.

(** [s.trim()]: white space removed at both ends. *)
Fixpoint trimEnd (s : string) : string :=
  match s with
  | EmptyString => EmptyString
  | String c s' =>
      match trimEnd s' with
      | EmptyString => if is_white c then EmptyString else String c EmptyString
      | t => String c t
      end
  end.

Definition trim (s : string) : string := trimEnd (skip_white s).

(** [corsOrigins]: the comma-separated [CORS_ORIGINS], each entry trimmed,
    or the three local origins when the variable is unset or empty. *)
Definition corsOrigins (env : gmap string string) : list string :=
  match env !! "CORS_ORIGINS" with
  | Some v =>
      if falsy (Some v)
      then ["http://localhost"; "http://localhost:3003"; "http://localhost:5173"]
      else trim <$> split "," v
  | None => ["http://localhost"; "http://localhost:3003"; "http://localhost:5173"]
  end.

End Config.

(** ** middleware/auth.js *)

Module Auth.
Import JS Http.

(** Result of [jwt.verify(token, secret)]: the decoded payload's
    [userId], or a thrown error ([JsonWebTokenError] for a malformed
    token or a bad signature, [TokenExpiredError] past expiry). *)
Inductive JwtResult :=
| Decoded (userId : option string)
| Thrown (name : string).

Section WithVerifier.
Variable env : gmap string string.
Variable jwt_verify : option string -> string -> JwtResult.

Definition verifyInternalApiKey (req : Request) : bool :=
  match headers req !! "x-internal-api-key" with
  | Some apiKey =>
      (negb (falsy (Some apiKey))
       && bool_decide (apiKey = Config.internalApiKey (Config.config env)))%bool
  | None => false
  end.

Definition requireAuth (req : Request) : Outcome :=
  match headers req !! "authorization" with
  | None => Respond {| status := 401; json := Error "Authentication required" |}
  | Some authHeader =>
      if (falsy (Some authHeader) || negb (startsWith "Bearer " authHeader))%bool
      then Respond {| status := 401; json := Error "Authentication required" |}
      else
        let token := split " " authHeader !! 1%nat in
        if falsy (Some (Config.jwtSecret (Config.config env)))
        then Respond {| status := 500; json := Error "Server configuration error" |}
        else
          match jwt_verify token (Config.jwtSecret (Config.config env)) with
          | Decoded uid => Next (set_user {| userId := uid |} req)
          | Thrown name =>
              if decide (name = "JsonWebTokenError")
              then Respond {| status := 401; json := Error "Invalid token" |}
              else if decide (name = "TokenExpiredError")
              then Respond {| status := 401; json := Error "Token expired" |}
              else Respond {| status := 500; json := Error "Authentication failed" |}
          end
  end.

Definition allowInternalService (req : Request) : Outcome :=
  if verifyInternalApiKey req then Next (set_isInternalService req)
  else requireAuth req.

(** [optionalAuth]: the same verification, but [next()] is called in every
    case; any failure leaves [req.user] null. *)
Definition optionalAuth (req : Request) : Outcome :=
  match headers req !! "authorization" with
  | None => Next (clear_user req)
  | Some authHeader =>
      if (falsy (Some authHeader) || negb (startsWith "Bearer " authHeader))%bool
      then Next (clear_user req)
      else
        let token := split " " authHeader !! 1%nat in
        match jwt_verify token (Config.jwtSecret (Config.config env)) with
        | Decoded uid => Next (set_user {| userId := uid |} req)
        | Thrown _ => Next (clear_user req)
        end
  end.

End WithVerifier.
End Auth.

(** ** middleware/rateLimit.js *)

Module RateLimit.
Import Http.

Record Limiter := { windowMs : Z; max : nat; message : string }.

Definition apiLimiter : Limiter :=
  {| windowMs := 15 * 60 * 1000; max := 100;
     message := "Too many requests, please try again later." |}.

Definition trackLimiter : Limiter :=
  {| windowMs := 60 * 1000; max := 60; message := "Too many tracking requests." |}.

(** Hits of the current window, per caller address ([req.ip]). *)
Definition Hits := gmap (option string) nat.

(** The [skip] option of both limiters. *)
Definition skip (req : Request) : bool := isInternalService req.

(** One request through a limiter: skipped for internal callers;
    otherwise the caller's hit is counted and the request is answered 429
    once the count exceeds [max]. *)
Definition run (l : Limiter) (hits : Hits) (req : Request) : Outcome * Hits :=
  if skip req then (Next req, hits)
  else
    let n := S (default 0%nat (hits !! ip req)) in
    let hits' := <[ip req := n]> hits in
    if Nat.ltb (max l) n
    then (Respond {| status := 429; json := Error (message l) |}, hits')
    else (Next req, hits').

(** The end of a window clears the counts. *)
Definition reset : Hits := ∅.

(** The counters after a sequence of requests went through a limiter. *)
Definition after (l : Limiter) (hits : Hits) (reqs : list Request) : Hits :=
  fold_left (fun h r => snd (run l h r)) reqs hits.

End RateLimit.

(** ** metrics.js: classification of the user agent *)

Module Metrics.
Import JS.

(** [toLowerCase] on one code unit: A-Z and the Latin-1 capitals. *)
Definition lower_char (c : ascii) : ascii :=
  let n := nat_of_ascii c in
  if ((Nat.leb 65 n && Nat.leb n 90)
      || (Nat.leb 192 n && Nat.leb n 222 && negb (Nat.eqb n 215)))%bool
  then ascii_of_nat (n + 32) else c.

(** [s.toLowerCase()] *)
Fixpoint toLowerCase (s : string) : string :=
  match s with
  | EmptyString => EmptyString
  | String c s' => String (lower_char c) (toLowerCase s')
  end.

(** [s.includes(sub)] *)
Fixpoint includes (sub s : string) : bool :=
  if startsWith sub s then true
  else match s with
       | EmptyString => false
       | String _ s' => includes sub s'
       end.

Definition parseBrowser (userAgent : option string) : string :=
  if falsy userAgent then "unknown"
  else
    let userAgent := toLowerCase (default EmptyString userAgent) in
    if includes "firefox" userAgent then "Firefox"
    else if includes "edg" userAgent then "Edge"
    else if includes "chrome" userAgent then "Chrome"
    else if includes "safari" userAgent then "Safari"
    else if (includes "opera" userAgent || includes "opr" userAgent)%bool then "Opera"
    else if (includes "msie" userAgent || includes "trident" userAgent)%bool then "IE"
    else "other".

Definition parseDevice (userAgent : option string) : string :=
  if falsy userAgent then "unknown"
  else
    let userAgent := toLowerCase (default EmptyString userAgent) in
    if (includes "mobile" userAgent
        || includes "android" userAgent && negb (includes "tablet" userAgent))%bool
    then "mobile"
    else if (includes "tablet" userAgent || includes "ipad" userAgent)%bool then "tablet"
    else if (includes "bot" userAgent || includes "crawler" userAgent
             || includes "spider" userAgent)%bool
    then "bot"
    else "desktop".

End Metrics.

(** ** routes.js *)

Module Routes.
Import JS Store Http.

(** What persists between requests: the collection, the geolocation
    module's state and the two limiters' counters.  The metrics counters
    are no part of any response and are left out. *)
Record World := {
  db : Db;
  geo : Geolocation.State;
  apiHits : RateLimit.Hits;
  trackHits : RateLimit.Hits
}.

Definition set_db (d : Db) (w : World) : World :=
  {| db := d; geo := geo w; apiHits := apiHits w; trackHits := trackHits w |}.
Definition set_apiHits (h : RateLimit.Hits) (w : World) : World :=
  {| db := db w; geo := geo w; apiHits := h; trackHits := trackHits w |}.
Definition set_trackHits (h : RateLimit.Hits) (w : World) : World :=
  {| db := db w; geo := geo w; apiHits := apiHits w; trackHits := h |}.

Definition reply (code : Z) (b : Body) : Response := {| status := code; json := b |}.

(** *** POST /api/analytics/track *)

(** [req.ip || req.headers['x-forwarded-for']?.split(',')[0] || null] *)
Definition track_ipAddress (req : Request) : option string :=
  or_else (ip req)
    (or_else ((fun h => default EmptyString (head (split "," h))) <$> headers req !! "x-forwarded-for")
       None).

Definition new_click (now : Z) (req : Request) (short_code original_url : string)
    (ipAddress : option string) (geoData : option Geolocation.GeoData) (id : nat) : Click :=
  {| _id := id;
     shortCode := short_code;
     originalUrl := original_url;
     timestamp := now;
     userAgent := or_null (headers req !! "user-agent");
     referer := or_null (headers req !! "referer");
     ipAddress := ipAddress;
     country := or_null (geoData ≫= Geolocation.country);
     countryCode := or_null (geoData ≫= Geolocation.countryCode);
     city := or_null (geoData ≫= Geolocation.city);
     region := or_null (geoData ≫= Geolocation.region);
     latitude := num_or_null (geoData ≫= Geolocation.latitude);
     longitude := num_or_null (geoData ≫= Geolocation.longitude);
     timezone := or_null (geoData ≫= Geolocation.timezone) |}.

(** The handler; [now] is the clock at the construction of the click. *)
Definition track (now : Z) (g : Geolocation.State) (d : Db) (req : Request)
  : Response * Db :=
  let short_code := body req !! "short_code" in
  let original_url := body req !! "original_url" in
  if (falsy short_code || falsy original_url)%bool
  then (reply 400 (Error "short_code and original_url are required"), d)
  else
    let ipAddress := track_ipAddress req in
    match Geolocation.lookupIP g ipAddress with
    | Throw _ => (reply 500 (Error "Failed to track click"), d)
    | Normal geoData =>
        match save d (new_click now req (default EmptyString short_code)
                        (default EmptyString original_url) ipAddress geoData) with
        | Some (click, d') =>
            (reply 201 (Tracked "Click tracked successfully" (_id click)), d')
        | None => (reply 500 (Error "Failed to track click"), d)
        end
    end.

(** *** GET /api/analytics/:shortCode *)

(** [now1] and [now2] are the two readings of [Date.now()]. *)
Definition stats (now1 now2 : Z) (d : Db) (req : Request) : Response :=
  let shortCode := params_shortCode req in
  match countDocuments d (by_code shortCode),
        countDocuments d (by_code_since shortCode (now1 - 24 * 60 * 60 * 1000)),
        countDocuments d (by_code_since shortCode (now2 - 7 * 24 * 60 * 60 * 1000)),
        findOne_newest d shortCode with
  | Some totalClicks, Some last24Hours, Some last7Days, Some lastClick =>
      reply 200 (Stats shortCode totalClicks last24Hours last7Days lastClick)
  | _, _, _, _ => reply 500 (Error "Failed to get stats")
  end.

(** *** GET /api/analytics/:shortCode/history *)

(** [const { limit = 100, offset = 0 } = req.query] *)
Definition query_or (req : Request) (name : string) (dflt : Z) : jsval :=
  default (VNum dflt) (VStr <$> query req !! name).

(** [Math.min(parseInt(limit, 10), 100)] *)
Definition cappedLimit (req : Request) : jsnum :=
  Math_min (parseInt (query_or req "limit" 100)) 100.

Definition history (d : Db) (req : Request) : Response :=
  let shortCode := params_shortCode req in
  let offset := parseInt (query_or req "offset" 0) in
  match find_page d shortCode offset (cappedLimit req),
        countDocuments d (by_code shortCode) with
  | Some clicks, Some total =>
      reply 200 (History shortCode total (cappedLimit req) offset clicks)
  | _, _ => reply 500 (Error "Failed to get history")
  end.

(** *** GET /api/analytics/:shortCode/daily *)

(** [Math.min(parseInt(days, 10), 90)] *)
Definition cappedDays (req : Request) : jsnum :=
  Math_min (parseInt (query_or req "days" 30)) 90.

(** [new Date(Date.now() - cappedDays * 24 * 60 * 60 * 1000)] as the
    pipeline receives it; an invalid date is sent as the epoch.  [now] is
    the reading of [Date.now()]. *)
Definition startDate (now : Z) (req : Request) : Z :=
  let t := match cappedDays req with
           | JInt n => JInt (now - n * 24 * 60 * 60 * 1000)
           | JNaN => JNaN
           end in
  match new_Date t with
  | JInt z => z
  | JNaN => 0
  end.

Definition daily (now : Z) (d : Db) (req : Request) : Response :=
  let shortCode := params_shortCode req in
  match aggregate_daily d shortCode (startDate now req) with
  | Some dailyClicks => reply 200 (Daily shortCode (cappedDays req) dailyClicks)
  | None => reply 500 (Error "Failed to get daily stats")
  end.

(** *** GET /api/analytics/:shortCode/geo *)

Definition geo_stats (d : Db) (req : Request) : Response :=
  let shortCode := params_shortCode req in
  match aggregate_top d shortCode country (fun c => (country c, countryCode c)) 20,
        aggregate_top d shortCode city (fun c => (city c, country c)) 10,
        countDocuments d (fun c => (by_code shortCode c && has (country c))%bool),
        countDocuments d (by_code shortCode) with
  | Some countryStats, Some cityStats, Some totalWithLocation, Some totalClicks =>
      reply 200 (Geo shortCode totalClicks totalWithLocation countryStats cityStats)
  | _, _, _, _ => reply 500 (Error "Failed to get geographic stats")
  end.

(** *** The router: middleware, then the handler *)

Section Router.
Variable env : gmap string string.
Variable jwt_verify : option string -> string -> Auth.JwtResult.

(** A read route: [router.get(path, auth, apiLimiter, handler)]. *)
Definition read_route (auth : Request -> Outcome) (handler : Db -> Request -> Response)
    (w : World) (req : Request) : Response * World :=
  match auth req with
  | Respond res => (res, w)
  | Next req1 =>
      match RateLimit.run RateLimit.apiLimiter (apiHits w) req1 with
      | (Respond res, hits) => (res, set_apiHits hits w)
      | (Next req2, hits) => (handler (db w) req2, set_apiHits hits w)
      end
  end.

Definition track_route (now : Z) (w : World) (req : Request) : Response * World :=
  match Auth.allowInternalService env jwt_verify req with
  | Respond res => (res, w)
  | Next req1 =>
      match RateLimit.run RateLimit.trackLimiter (trackHits w) req1 with
      | (Respond res, hits) => (res, set_trackHits hits w)
      | (Next req2, hits) =>
          let '(res, d) := track now (geo w) (db w) req2 in
          (res, set_db d (set_trackHits hits w))
      end
  end.

Definition stats_route (now1 now2 : Z) : World -> Request -> Response * World :=
  read_route (Auth.allowInternalService env jwt_verify) (stats now1 now2).

Definition history_route : World -> Request -> Response * World :=
  read_route (Auth.requireAuth env jwt_verify) history.

Definition daily_route (now : Z) : World -> Request -> Response * World :=
  read_route (Auth.requireAuth env jwt_verify) (daily now).

Definition geo_route : World -> Request -> Response * World :=
  read_route (Auth.requireAuth env jwt_verify) geo_stats.

End Router.
End Routes.

(** ** The specification's vocabulary

Definitions that follow the words of the specification, to be compared
with the code's. *)

Module Spec.
Import JS Store Http.

(** Decimal text of an octet. *)
Definition dec (n : N) : string := NilZero.string_of_uint (N.to_uint n).

(** Dotted-decimal text of the IPv4 address [a.b.c.d]. *)
Definition dotted (a b c d : N) : string :=
  dec a ++ "." ++ dec b ++ "." ++ dec c ++ "." ++ dec d.

(** 10/8, 172.16/12, 192.168/16 and 127/8, by the leading octets. *)
Definition private_v4 (a b : N) : Prop :=
  (a = 10 \/ (a = 172 /\ 16 <= b <= 31) \/ (a = 192 /\ b = 168) \/ a = 127)%N.

(** The texts that the expressions of [isPrivateIP] are written for:
    dotted-decimal IPv4 text of the four ranges, the token [localhost],
    [::1], and text that starts with [fe80:]. *)
Inductive recognised : string -> Prop :=
| known_v4 a b c d : private_v4 a b -> recognised (dotted a b c d)
| known_localhost : recognised "localhost"
| known_v6_loopback : recognised "::1"
| known_fe80 rest : recognised ("fe80:" ++ rest).

(** *** The ranges of the specification

    "IPv4 10/8, 172.16/12, 192.168/16, 127/8; IPv6 loopback and
    link-local; the literal token localhost": ranges of addresses, in
    whatever text an address arrives. *)

(** A hexadecimal digit, lower case. *)
Definition hex_digit (n : N) : ascii :=
  ascii_of_N (if (n <? 10)%N then 48 + n else 87 + n).

(** A 16-bit group in hexadecimal, without leading zeros. *)
Definition hex (n : N) : string :=
  let d (k : N) := String (hex_digit ((n / k) mod 16)) EmptyString in
  (if (4096 <=? n)%N then d 4096%N else EmptyString)
  ++ (if (256 <=? n)%N then d 256%N else EmptyString)
  ++ (if (16 <=? n)%N then d 16%N else EmptyString)
  ++ d 1%N.

(** Groups joined by colons. *)
Definition colons (g : list N) : string := String.concat ":" (hex <$> g).

(** The texts of the IPv6 address with the eight groups [g]: every group
    written out, or one run of zero groups written [::]. *)
Inductive v6_text (g : list N) : string -> Prop :=
| v6_full : length g = 8%nat -> v6_text g (colons g)
| v6_short pre zeros post :
    length g = 8%nat -> g = (pre ++ zeros ++ post)%list ->
    zeros <> [] -> Forall (fun z => z = 0%N) zeros ->
    v6_text g (colons pre ++ "::" ++ colons post).

(** The IPv6 loopback address. *)
Definition v6_loopback : list N := [0; 0; 0; 0; 0; 0; 0; 1]%N.

(** IPv6 link-local, [fe80::/10]: the first ten bits are those of [fe80]. *)
Definition v6_link_local (g : list N) : Prop :=
  exists g0 rest, g = g0 :: rest /\ Forall (fun x => (x < 65536)%N) g
                  /\ (g0 / 64 = 1018)%N.

(** "ip falls in a private or loopback range".  An IPv4 address is
    written in dotted decimal, or as the IPv4-mapped IPv6 address
    [::ffff:a.b.c.d], the form in which a dual-stack socket reports an
    IPv4 peer. *)
Inductive private_or_loopback : string -> Prop :=
| range_v4 a b c d :
    private_v4 a b -> (b < 256)%N -> (c < 256)%N -> (d < 256)%N ->
    private_or_loopback (dotted a b c d)
| range_v4_mapped a b c d :
    private_v4 a b -> (b < 256)%N -> (c < 256)%N -> (d < 256)%N ->
    private_or_loopback ("::ffff:" ++ dotted a b c d)
| range_localhost : private_or_loopback "localhost"
| range_v6_loopback s : v6_text v6_loopback s -> private_or_loopback s
| range_v6_link_local g s : v6_link_local g -> v6_text g s -> private_or_loopback s.

(** The claim on private ranges fails at [ip]: the address is in a range,
    [isPrivateIP] does not flag its text, and the lookup returns the
    location that the database holds for it. *)
Definition private_located (st : Geolocation.State) (ip : string) : Prop :=
  private_or_loopback ip
  /\ Geolocation.isPrivateIP (Some ip) = false
  /\ exists gd, Geolocation.lookupIP st (Some ip) = Normal (Some gd).

(** The seven geolocation attributes of a record. *)
Definition geo_all_set (c : Click) : Prop :=
  is_Some (country c) /\ is_Some (countryCode c) /\ is_Some (city c)
  /\ is_Some (region c) /\ is_Some (latitude c) /\ is_Some (longitude c)
  /\ is_Some (timezone c).

Definition geo_all_null (c : Click) : Prop :=
  country c = None /\ countryCode c = None /\ city c = None /\ region c = None
  /\ latitude c = None /\ longitude c = None /\ timezone c = None.

(** "A record either has a complete geolocation tuple or none of it." *)
Definition geo_complete_or_absent (c : Click) : Prop :=
  geo_all_set c \/ geo_all_null c.

(** The record's geolocation attributes are the resolver's fields. *)
Definition geo_fields_of (gd : Geolocation.GeoData) (c : Click) : Prop :=
  country c = Geolocation.country gd
  /\ countryCode c = Geolocation.countryCode gd
  /\ city c = Geolocation.city gd
  /\ region c = Geolocation.region gd
  /\ latitude c = Geolocation.latitude gd
  /\ longitude c = Geolocation.longitude gd
  /\ timezone c = Geolocation.timezone gd.

(** A forwarded-for header lists addresses separated by commas, with
    optional spaces around each.  These characters stand between the
    entries. *)
Definition separator (c : ascii) : bool :=
  (bool_decide (c = " "%char) || bool_decide (c = ","%char))%bool.

(** The text before the first comma. *)
Fixpoint before_comma (s : string) : string :=
  match s with
  | EmptyString => EmptyString
  | String c s' => if decide (c = ","%char) then EmptyString else String c (before_comma s')
  end.

(** A text without the spaces at its end. *)
Fixpoint without_trailing_spaces (s : string) : string :=
  match s with
  | EmptyString => EmptyString
  | String c s' =>
      match without_trailing_spaces s' with
      | EmptyString => if decide (c = " "%char) then EmptyString else String c EmptyString
      | t => String c t
      end
  end.

(** "The first entry of a forwarded-for header": the header is read from
    the left, past spaces and commas; the entry starts at the first other
    character and runs up to the next comma, the spaces at its end
    left out.  A header of spaces and commas alone has no entry. *)
Fixpoint first_entry (h : string) : option string :=
  match h with
  | EmptyString => None
  | String c h' =>
      if separator c then first_entry h'
      else Some (without_trailing_spaces (before_comma h))
  end.

(** "First entry of a forwarded-for header, else the transport-level
    peer address, else null." *)
Definition client_address (req : Request) : option string :=
  match first_entry (default EmptyString (headers req !! "x-forwarded-for")) with
  | Some a => Some a
  | None => or_null (socket_remoteAddress req)
  end.

(** Node delivers a header value without leading white space. *)
Definition forwarded_header_trimmed (req : Request) : Prop :=
  forall h, headers req !! "x-forwarded-for" = Some h -> startsWith " " h = false.

(** The request is passed on as it came, [req.user] apart. *)
Definition same_but_user (req req' : Request) : Prop :=
  headers req' = headers req
  /\ socket_remoteAddress req' = socket_remoteAddress req
  /\ params_shortCode req' = params_shortCode req
  /\ query req' = query req
  /\ body req' = body req
  /\ isInternalService req' = isInternalService req.

(** "Carries no user bearer token": no [Authorization] header, or one
    that is not of the form [Bearer <token>]. *)
Definition no_bearer_token (req : Request) : Prop :=
  match headers req !! "authorization" with
  | None => True
  | Some h => startsWith "Bearer " h = false
  end.

(** "The echoed limit field is between 1 and 100 and the returned page
    length is at most that echoed limit." *)
Definition limit_clamped (r : Response) : Prop :=
  match json r with
  | History _ _ l _ clicks =>
      exists n, l = JInt n /\ 1 <= n <= 100 /\ (length clicks <= Z.to_nat n)%nat
  | _ => True
  end.



(** A reading of [Date.now()]: a time on or after the epoch that a date
    can hold.  For such a clock the start date of the daily series is the
    same number here and in the code's arithmetic on doubles: where the
    two could differ, beyond 2^53, both are outside the range of dates. *)
Definition clock (now : Z) : Prop := 0 <= now <= 8640000000000000.

(** The store holds no click of the short code. *)
Definition no_clicks (d : Db) (code : string) : Prop :=
  forall c, c ∈ docs d -> shortCode c <> code.

(** The request with a field of its body absent. *)
Definition without_field (name : string) (req : Request) : Request :=
  {| headers := headers req; socket_remoteAddress := socket_remoteAddress req;
     params_shortCode := params_shortCode req; query := query req;
     body := delete name (body req); isInternalService := isInternalService req;
     user := user req |}.

(** A refusal by the middleware: an error body with 401, 429 or 500. *)
Definition refused (r : Response) : Prop :=
  (exists e, json r = Error e) /\ (status r = 401 \/ status r = 429 \/ status r = 500).

(** The requests of a sequence that count against the caller at address
    [a]: those not marked internal whose [req.ip] is [a]. *)
Definition calls (a : option string) (reqs : list Request) : nat :=
  length (filter (fun r => isInternalService r = false /\ ip r = a) reqs).

(** An expression that matches nothing. *)
Fixpoint is_void (r : Regex.re) : bool :=
  match r with
  | Regex.Void => true
  | Regex.Seq a b => is_void a || is_void b
  | Regex.Alt a b => is_void a && is_void b
  | _ => false
  end.

(** What a prefix of the text already decides about a match: [Some true]
    when the expression has matched inside the prefix, [Some false] when
    nothing can match any more, [None] when it depends on the rest. *)
Fixpoint verdict (i d : bool) (r : Regex.re) (p : string) : option bool :=
  match p with
  | EmptyString => if is_void r then Some false else None
  | String c p' =>
      if (Regex.nullable r && negb d)%bool then Some true
      else verdict i d (Regex.deriv i c r) p'
  end.

(** [private_v4] as a test. *)
Definition private_v4b (a b : N) : bool :=
  ((a =? 10) || ((a =? 172) && (16 <=? b) && (b <=? 31))
   || ((a =? 192) && (b =? 168)) || (a =? 127))%N.

(** No expression of [privateRanges] can match a text that starts with
    the octets [a.b.]. *)
Definition all_refuse (a b : N) : bool :=
  forallb (fun x =>
             match verdict (Regex.ignoreCase x) (Regex.dollar x) (Regex.pat x)
                     (dec a ++ "." ++ dec b ++ ".") with
             | Some false => true
             | _ => false
             end)
    Geolocation.privateRanges.

Definition octets : list N := N.of_nat <$> seq 0 256.

(** A text without a space. *)
Fixpoint space_free (s : string) : bool :=
  match s with
  | EmptyString => true
  | String c s' => if decide (c = " "%char) then false else space_free s'
  end.

(** What [requireAuth] does with the verifier's answer. *)
Definition verified (r : Auth.JwtResult) (req : Request) : Outcome :=
  match r with
  | Auth.Decoded uid => Next (set_user {| userId := uid |} req)
  | Auth.Thrown name =>
      if decide (name = "JsonWebTokenError")
      then Respond {| status := 401; json := Error "Invalid token" |}
      else if decide (name = "TokenExpiredError")
      then Respond {| status := 401; json := Error "Token expired" |}
      else Respond {| status := 500; json := Error "Authentication failed" |}
  end.

(** The count that a list of groups records for a key. *)
Definition recorded {K : Type} `{EqDecision K} (k : K) (acc : list (K * nat)) : nat :=
  sum_list (snd <$> filter (fun p => fst p = k) acc).

End Spec.

(** ** Sample data *)

Module Sample.
Import JS Store Http Routes.

(** A database that knows the country of 8.8.8.8 and nothing else. *)
Definition country_only : Geolocation.CityResponse :=
  {| Geolocation.country_names_en := Some "United States";
     Geolocation.country_isoCode := Some "US";
     Geolocation.city_names_en := None;
     Geolocation.subdivisions_0_names_en := None;
     Geolocation.location_latitude := Some (37751 # 1000);
     Geolocation.location_longitude := Some (-97822 # 1000);
     Geolocation.location_timeZone := Some "America/Chicago" |}.

Definition rd : Geolocation.Reader :=
  fun ip => if decide (ip = "8.8.8.8") then Normal country_only
            else Throw "AddressNotFoundError".

Definition ready : Geolocation.State :=
  Geolocation.initGeoIP true true (Normal rd) Geolocation.initial.

(** A database with an entry for every address, the hosts of the local
    network included. *)
Definition rd_all : Geolocation.Reader := fun _ => Normal country_only.

Definition ready_all : Geolocation.State :=
  Geolocation.initGeoIP true true (Normal rd_all) Geolocation.initial.

Definition disabled : Geolocation.State :=
  Geolocation.initGeoIP true false (Throw "Error") Geolocation.initial.

Definition empty_db : Db := {| docs := []; next_id := 0; online := true |}.

Definition env : gmap string string := ∅.

(** A verifier that accepts the token [good] for [user123], finds [old]
    expired and rejects everything else. *)
Definition jwt_verify (token : option string) (secret : string) : Auth.JwtResult :=
  match token with
  | Some t =>
      if decide (t = "good") then Auth.Decoded (Some "user123")
      else if decide (t = "old") then Auth.Thrown "TokenExpiredError"
      else Auth.Thrown "JsonWebTokenError"
  | None => Auth.Thrown "JsonWebTokenError"
  end.

Definition request (hs : list (string * string)) (peer : option string)
    (code : string) (q b : list (string * string)) : Request :=
  {| headers := list_to_map hs; socket_remoteAddress := peer;
     params_shortCode := code; query := list_to_map q; body := list_to_map b;
     isInternalService := false; user := None |}.

Definition world (d : Db) (g : Geolocation.State) : World :=
  {| db := d; geo := g; apiHits := ∅; trackHits := ∅ |}.

Definition internal_key : string := "internal-service-key-change-in-production".

(** Scenario A's submission, sent by a trusted service for the client
    8.8.8.8. *)
Definition track_abc : Request :=
  request [("x-internal-api-key", internal_key); ("x-forwarded-for", "8.8.8.8")]
    (Some "10.0.0.7") EmptyString []
    [("short_code", "abc"); ("original_url", "https://x.com")].

(** The same submission relayed by a proxy at 10.0.0.1, which appended
    itself to the forwarded-for header. *)
Definition track_relayed : Request :=
  request [("x-internal-api-key", internal_key); ("x-forwarded-for", "8.8.8.8, 10.0.0.1")]
    (Some "10.0.0.7") EmptyString []
    [("short_code", "abc"); ("original_url", "https://x.com")].

(** Requests of a signed-in user for the history and the daily series of
    [abc], asking for a limit of 0 and for 0 days. *)
Definition history_limit_0 : Request :=
  request [("authorization", "Bearer good")] (Some "203.0.113.9") "abc"
    [("limit", "0")] [].


(** Scenario D: the history of [history123] asked with the internal key
    alone. *)
Definition history_internal_only : Request :=
  request [("x-internal-api-key", internal_key)] (Some "10.0.0.7") "history123" [] [].

(** Scenario B: the stats of a short code never seen. *)
Definition stats_never_seen : Request :=
  request [("x-internal-api-key", internal_key)] (Some "10.0.0.7") "never-seen" [] [].

(** A submission whose short code is the empty string. *)
Definition track_empty_code : Request :=
  request [("x-internal-api-key", internal_key)] (Some "10.0.0.7") EmptyString []
    [("short_code", EmptyString); ("original_url", "https://x.com")].

(** A stored click with the fields the tests set. *)
Definition click (id : nat) (code : string) (t : Z) (ua ctry cc cty : option string) : Click :=
  {| _id := id; shortCode := code; originalUrl := "https://example.com"; timestamp := t;
     userAgent := ua; referer := None; ipAddress := None;
     country := ctry; countryCode := cc; city := cty; region := None;
     latitude := None; longitude := None; timezone := None |}.

Definition db_of (l : list Click) : Db :=
  {| docs := l; next_id := length l; online := true |}.

Definition now : Z := 1700000000000.
Definition hour : Z := 60 * 60 * 1000.

(** Three clicks of [stats123]: now, 12 hours ago and 3 days ago. *)
Definition stats123 : Db :=
  db_of [click 0 "stats123" now None None None None;
         click 1 "stats123" (now - 12 * hour) None None None None;
         click 2 "stats123" (now - 3 * 24 * hour) None None None None].

(** Scenario C: fifteen clicks of [history123], one per hour. *)
Definition history123 : Db :=
  db_of ((fun i => click i "history123" (now - Z.of_nat i * hour)
                     (Some "TestAgent") (Some "United States") None (Some "New York"))
           <$> seq 0 15).

(** Four clicks of [geo123], one without location. *)
Definition geo123 : Db :=
  db_of [click 0 "geo123" now None (Some "United States") (Some "US") (Some "New York");
         click 1 "geo123" now None (Some "United States") (Some "US") (Some "Los Angeles");
         click 2 "geo123" now None (Some "Germany") (Some "DE") (Some "Berlin");
         click 3 "geo123" now None None None None].

(** One hundred and fifty clicks of [abc], one per hour, the newest first. *)
Definition abc150 : Db :=
  db_of ((fun i => click i "abc" (now - Z.of_nat i * hour) None None None None)
           <$> seq 0 150).

Definition user_request (code : string) (q : list (string * string)) : Request :=
  request [("authorization", "Bearer good")] (Some "203.0.113.9") code q [].



(** The record that submission produces. *)
Definition click_abc : Click :=
  {| _id := 0; shortCode := "abc"; originalUrl := "https://x.com";
     timestamp := 1700000000000;
     userAgent := None; referer := None; ipAddress := Some "8.8.8.8";
     country := Some "United States"; countryCode := Some "US";
     city := None; region := None;
     latitude := Some (37751 # 1000); longitude := Some (-97822 # 1000);
     timezone := Some "America/Chicago" |}.

End Sample.

(** * Properties *)

Import JS Regex Store Http Routes.

(** ** Evaluation on concrete inputs *)

Example isPrivateIP_10 : Geolocation.isPrivateIP (Some "10.1.2.3") = true.
Proof. reflexivity. Qed.
Example isPrivateIP_172_15 : Geolocation.isPrivateIP (Some "172.15.0.1") = false.
Proof. reflexivity. Qed.
Example isPrivateIP_172_31 : Geolocation.isPrivateIP (Some "172.31.0.1") = true.
Proof. reflexivity. Qed.
Example isPrivateIP_LocalHost : Geolocation.isPrivateIP (Some "LocalHost") = true.
Proof. reflexivity. Qed.
Example isPrivateIP_localhost_suffix :
  Geolocation.isPrivateIP (Some "localhost.example") = false.
Proof. reflexivity. Qed.
Example isPrivateIP_FE80 : Geolocation.isPrivateIP (Some "FE80::1") = true.
Proof. reflexivity. Qed.
Example isPrivateIP_public : Geolocation.isPrivateIP (Some "8.8.8.8") = false.
Proof. reflexivity. Qed.
Example parseInt_200px : parseInt (VStr " 200px") = JInt 200.
Proof. reflexivity. Qed.
Example parseInt_default : parseInt (VNum 100) = JInt 100.
Proof. reflexivity. Qed.
Example parseInt_negative : parseInt (VStr "-5") = JInt (-5).
Proof. reflexivity. Qed.
Example parseInt_letters : parseInt (VStr "abc") = JNaN.
Proof. reflexivity. Qed.
Example split_bearer : split " " "Bearer abc.def" = ["Bearer"; "abc.def"].
Proof. reflexivity. Qed.
Example forwarded_entries_two :
  forwarded_entries "8.8.8.8, 10.0.0.1" = ["8.8.8.8"; "10.0.0.1"].
Proof. reflexivity. Qed.
Example forwarded_entries_blank : forwarded_entries " , ,1.2.3.4 " = ["1.2.3.4"].
Proof. reflexivity. Qed.
Example hex_groups :
  Spec.hex 0 = "0" /\ Spec.hex 65152 = "fe80" /\ Spec.hex 3512 = "db8"
  /\ Spec.colons Spec.v6_loopback = "0:0:0:0:0:0:0:1".
Proof. by vm_compute. Qed.
Example first_entry_two : Spec.first_entry "8.8.8.8, 10.0.0.1" = Some "8.8.8.8".
Proof. reflexivity. Qed.
Example first_entry_spaced : Spec.first_entry "2001:db8::1 ,10.0.0.1" = Some "2001:db8::1".
Proof. reflexivity. Qed.
Example first_entry_blank : Spec.first_entry " , ,1.2.3.4 " = Some "1.2.3.4".
Proof. reflexivity. Qed.
Example first_entry_none : Spec.first_entry ", ," = None.
Proof. reflexivity. Qed.

(** ** Geolocation resolver *)

Lemma append_nil (t : string) : EmptyString ++ t = t.
Proof. reflexivity. Qed.

Lemma append_cons (c : ascii) (s t : string) : String c s ++ t = String c (s ++ t).
Proof. reflexivity. Qed.

Lemma append_assoc (s1 s2 s3 : string) : (s1 ++ s2) ++ s3 = s1 ++ s2 ++ s3.
Proof.
  induction s1 as [|c s1 IH]; [done|].
  by rewrite !append_cons, IH.
Qed.

Lemma matches_nullable i r s : nullable r = true -> matches i false r s = true.
Proof. intros H. destruct s; simpl; [done|]. by rewrite H. Qed.

(** A pattern without [$] that matches a text matches every extension of it. *)
Lemma matches_prefix i r p rest :
  matches i true r p = true -> matches i false r (p ++ rest) = true.
Proof.
  revert r. induction p as [|c p IH]; intros r H.
  - rewrite append_nil. by apply matches_nullable.
  - rewrite append_cons. simpl in *. rewrite andb_false_r in H.
    destruct (nullable r); simpl; [done|]. by apply IH.
Qed.

Lemma isPrivateIP_intro x p rest :
  In x Geolocation.privateRanges -> dollar x = false -> p <> EmptyString ->
  matches (ignoreCase x) true (pat x) p = true ->
  Geolocation.isPrivateIP (Some (p ++ rest)) = true.
Proof.
  intros Hin Hd Hp Hm. unfold Geolocation.isPrivateIP.
  destruct (falsy (Some (p ++ rest))); [done|].
  apply existsb_exists. exists x. split; [done|].
  unfold test. rewrite Hd. by apply matches_prefix.
Qed.

Lemma dotted_octet a b c d :
  Spec.dotted a b c d = (Spec.dec a ++ ".") ++ Spec.dec b ++ "." ++ Spec.dec c ++ "." ++ Spec.dec d.
Proof. unfold Spec.dotted. by rewrite append_assoc. Qed.

Lemma dotted_octets a b c d :
  Spec.dotted a b c d
  = (Spec.dec a ++ "." ++ Spec.dec b ++ ".") ++ Spec.dec c ++ "." ++ Spec.dec d.
Proof. unfold Spec.dotted. by rewrite !append_assoc. Qed.

Lemma private_v4_isPrivateIP a b c d :
  Spec.private_v4 a b -> Geolocation.isPrivateIP (Some (Spec.dotted a b c d)) = true.
Proof.
  intros [-> | [[-> Hb] | [[-> ->] | ->]]].
  - rewrite dotted_octet.
    by apply (isPrivateIP_intro {| pat := lit "10."; dollar := false; ignoreCase := false |});
      [simpl; tauto|..].
  - rewrite dotted_octets.
    eapply isPrivateIP_intro with (x := nth 1 Geolocation.privateRanges _);
      [simpl; tauto|done|by destruct (Spec.dec b)|].
    assert (Hcases : Forall (fun k => b = k ->
               matches false true (pat (nth 1 Geolocation.privateRanges
                                          {| pat := Void; dollar := false; ignoreCase := false |}))
                 (Spec.dec 172 ++ "." ++ Spec.dec b ++ ".") = true)
              (N.of_nat <$> seq 16 16)).
    { cbn [fmap list_fmap seq].
      repeat (apply List.Forall_cons; [intros ->; reflexivity|]). apply List.Forall_nil. }
    rewrite Forall_forall in Hcases.
    apply (Hcases b); [|done].
    apply list_elem_of_fmap.
    exists (N.to_nat b). split; [lia|].
    apply elem_of_seq. lia.
  - rewrite dotted_octets.
    by apply (isPrivateIP_intro {| pat := lit "192.168."; dollar := false; ignoreCase := false |});
      [simpl; tauto|..].
  - rewrite dotted_octet.
    by apply (isPrivateIP_intro {| pat := lit "127."; dollar := false; ignoreCase := false |});
      [simpl; tauto|..].
Qed.

(** C7. The lookup does not answer null for every private or loopback
    address.  The host 10.0.0.7 is skipped under its dotted-decimal text,
    but under [::ffff:10.0.0.7], the text in which a dual-stack socket
    reports it, no expression of [privateRanges] matches and the database
    is asked; the same happens to the link-local address [febf::1], which
    lies in [fe80::/10] but does not start with [fe80:], and to the
    loopback address written out as [0:0:0:0:0:0:0:1].  With a database
    that holds these addresses the lookup returns their location. *)
Theorem lookupIP_private_address_located :
  Geolocation.lookupIP Sample.ready_all (Some "10.0.0.7") = Normal None
  /\ Spec.private_located Sample.ready_all "::ffff:10.0.0.7"
  /\ Spec.private_located Sample.ready_all "febf::1"
  /\ Spec.private_located Sample.ready_all "0:0:0:0:0:0:0:1".
Proof.
  split; [reflexivity|].
  split; [|split]; (split; [|split; [reflexivity|eexists; reflexivity]]).
  - apply (Spec.range_v4_mapped 10 0 0 7); [by left|done..].
  - apply (Spec.range_v6_link_local [65215; 0; 0; 0; 0; 0; 0; 1]%N).
    + exists 65215%N, [0; 0; 0; 0; 0; 0; 1]%N.
      split; [done|]. split; [|done].
      repeat (apply List.Forall_cons; [done|]). apply List.Forall_nil.
    + apply (Spec.v6_short _ [65215]%N [0; 0; 0; 0; 0; 0]%N [1]%N); [done..|].
      repeat (apply List.Forall_cons; [done|]). apply List.Forall_nil.
  - apply Spec.range_v6_loopback. by apply (Spec.v6_full Spec.v6_loopback).
Qed.

(** ** Event ingestion *)

Lemma track_created now g d req res d' :
  track now g d req = (res, d') -> status res = 201 ->
  exists sc url gd,
    Geolocation.lookupIP g (track_ipAddress req) = Normal gd
    /\ d' = {| docs := docs d ++ [new_click now req sc url (track_ipAddress req) gd (next_id d)];
               next_id := S (next_id d); online := online d |}.
Proof.
  unfold track, save, guard. intros H Hs.
  destruct (falsy (body req !! "short_code") || falsy (body req !! "original_url"))%bool.
  { inversion H; subst. discriminate. }
  destruct (Geolocation.lookupIP g (track_ipAddress req)) as [gd|].
  2: { inversion H; subst. discriminate. }
  destruct (online d).
  2: { inversion H; subst. discriminate. }
  inversion H; subst. eauto.
Qed.

Lemma or_null_idem o : or_null (or_null o) = or_null o.
Proof.
  unfold or_null, or_else. destruct o as [s|]; simpl; [|done].
  by destruct (decide (s = EmptyString)); simpl; [|destruct (decide (s = EmptyString))].
Qed.

Lemma num_or_null_idem o : num_or_null (num_or_null o) = num_or_null o.
Proof.
  destruct o as [q|]; simpl; [|done].
  destruct (Qeq_bool q 0) eqn:E; simpl; [done|]. by rewrite E.
Qed.

Lemma lookupIP_structure g ip gd :
  Geolocation.lookupIP g ip = Normal (Some gd) ->
  exists r, gd = Geolocation.geo_of_response r.
Proof.
  unfold Geolocation.lookupIP. intros H.
  destruct (Geolocation.reader g) as [rdr|]; [|done].
  destruct ip as [ip|]; [|done].
  destruct (falsy (Some ip)); [done|].
  destruct (Geolocation.isPrivateIP (Some ip)); [done|].
  destruct (rdr ip) as [r|]; simpl in H; [|done].
  exists r. congruence.
Qed.

(** C4, as amended.  A record written by the track route carries the
    resolver's output: every geolocation attribute is null when the
    resolver returned null, and otherwise each attribute is the resolver's
    field of the same name, each on its own null or not.  The records
    already in the store are unchanged. *)
Theorem track_geolocation_from_resolver now g d req res d' :
  track now g d req = (res, d') -> status res = 201 ->
  exists c, docs d' = (docs d ++ [c])%list
    /\ match Geolocation.lookupIP g (track_ipAddress req) with
       | Normal (Some gd) => Spec.geo_fields_of gd c
       | _ => Spec.geo_all_null c
       end.
Proof.
  intros H Hs. destruct (track_created _ _ _ _ _ _ H Hs) as (sc & url & gd & Hl & ->).
  eexists. split; [reflexivity|]. rewrite Hl.
  destruct gd as [gd|]; [|by repeat split].
  destruct (lookupIP_structure _ _ _ Hl) as [r ->].
  unfold Spec.geo_fields_of; simpl.
  by rewrite !or_null_idem, !num_or_null_idem.
Qed.

(** C4, as stated, fails: the database knows the country of 8.8.8.8 but not
    its city or region, and the record written for a click from that address
    has a country and no city. *)
Lemma track_partial_geolocation :
  track_route Sample.env Sample.jwt_verify 1700000000000
    (Sample.world Sample.empty_db Sample.ready) Sample.track_abc
  = (reply 201 (Tracked "Click tracked successfully" 0),
     {| db := {| docs := [Sample.click_abc]; next_id := 1; online := true |};
        geo := Sample.ready; apiHits := ∅; trackHits := ∅ |})
  /\ ~ Spec.geo_complete_or_absent Sample.click_abc.
Proof.
  split; [by vm_compute|].
  intros [(_ & _ & [x Hx] & _) | (H & _)]; simpl in *; discriminate.
Qed.

Lemma track_geolocation_from_resolver_witness :
  exists c, docs (snd (track 1700000000000 Sample.ready Sample.empty_db
                         (set_isInternalService Sample.track_abc)))
            = (docs Sample.empty_db ++ [c])%list
    /\ Spec.geo_fields_of (Geolocation.geo_of_response Sample.country_only) c.
Proof.
  destruct (track_geolocation_from_resolver 1700000000000 Sample.ready Sample.empty_db
              (set_isInternalService Sample.track_abc) _ _ eq_refl eq_refl)
    as (c & Hd & Hg).
  exists c. split; [exact Hd|]. exact Hg.
Defined.

(** *** The client address *)

Lemma last_forwarded_chain (x : option string) (l : list string) :
  List.last (x :: (Some <$> rev l)) None = match l with a :: _ => Some a | [] => x end.
Proof.
  destruct l as [|a l]; [done|].
  simpl rev. rewrite fmap_app. simpl fmap.
  rewrite app_comm_cons. apply List.last_last.
Qed.

Lemma forwarded_entries_nonempty h a :
  In a (forwarded_entries h) -> falsy (Some a) = false.
Proof.
  unfold forwarded_entries. intros H%list_elem_of_In%list_elem_of_filter.
  destruct H as [H _]. by destruct a.
Qed.

Lemma trim_left_no_space s t : trim_left s <> String " " t.
Proof.
  induction s as [|c s IH]; simpl; [done|].
  destruct (decide (c = " "%char)) as [->|Hc]; [done|].
  assert (trim_left (String c s) = String c s) as E.
  { destruct c as [[] [] [] [] [] [] [] []]; try reflexivity. done. }
  simpl in E. rewrite E. congruence.
Qed.

Lemma trim_right_empty s :
  trim_right s = EmptyString -> s = EmptyString \/ exists t, s = String " " t.
Proof.
  destruct s as [|c s]; simpl; [by left|].
  destruct (trim_right s); [|done].
  destruct (decide (c = " "%char)) as [->|]; [|done]. right. eauto.
Qed.

Lemma trim_left_empty s :
  trim_left s = EmptyString -> s = EmptyString \/ exists t, s = String " " t.
Proof.
  destruct s as [|c s]; [by left|].
  destruct (decide (c = " "%char)) as [->|Hc]; [right; eauto|].
  assert (trim_left (String c s) = String c s) as E.
  { destruct c as [[] [] [] [] [] [] [] []]; try reflexivity. done. }
  rewrite E. done.
Qed.

Lemma split_head_prefix c h w ws a w' :
  split c h = w :: ws -> w = String a w' -> exists h', h = String a h'.
Proof.
  destruct h as [|b h]; simpl; [intros [= <- <-]; done|].
  destruct (decide (b = c)); [intros [= <- <-]; done|].
  destruct (split c h); intros [= <- <-] [= -> _]; eauto.
Qed.

Lemma split_not_nil c h : split c h <> [].
Proof.
  destruct h as [|b h]; simpl; [done|].
  destruct (decide (b = c)); [done|]. by destruct (split c h).
Qed.

(** A header without entries and without leading space starts with an
    empty segment. *)
Lemma no_entries_first_segment h :
  forwarded_entries h = [] -> startsWith " " h = false ->
  head (split "," h) = Some EmptyString.
Proof.
  unfold forwarded_entries. intros He Hs.
  destruct (split "," h) as [|w ws] eqn:E; [by apply split_not_nil in E|].
  simpl. f_equal.
  rewrite fmap_cons, filter_cons in He.
  destruct (decide (nonempty ((trim_right ∘ trim_left) w) = true)) as [|Hn]; [done|].
  assert (Ht : trim_right (trim_left w) = EmptyString).
  { simpl in Hn. by destruct (trim_right (trim_left w)). }
  apply trim_right_empty in Ht as [Ht|[t Ht]]; [|by apply trim_left_no_space in Ht].
  apply trim_left_empty in Ht as [Ht|[t Ht]]; [done|].
  destruct (split_head_prefix _ _ _ _ _ _ E Ht) as [h' ->].
  simpl in Hs. done.
Qed.

Lemma split_cons_inv c h : exists w ws, split c h = w :: ws.
Proof.
  destruct (split c h) as [|w ws] eqn:E; [by apply split_not_nil in E|eauto].
Qed.

Lemma forwarded_entries_after_space h :
  forwarded_entries (String " " h) = forwarded_entries h.
Proof.
  unfold forwarded_entries. simpl split.
  destruct (decide (" "%char = ","%char)) as [|_]; [done|].
  by destruct (split_cons_inv "," h) as (w & ws & ->).
Qed.

Lemma forwarded_entries_after_comma h :
  forwarded_entries (String "," h) = forwarded_entries h.
Proof.
  unfold forwarded_entries. simpl split.
  destruct (decide (","%char = ","%char)) as [_|]; [|done].
  by rewrite fmap_cons, filter_cons.
Qed.

Lemma split_head_before_comma h :
  head (split "," h) = Some (Spec.before_comma h).
Proof.
  induction h as [|c h IH]; simpl; [done|].
  destruct (decide (c = ","%char)); [done|].
  destruct (split "," h) as [|w ws]; simpl in *; [done|]. congruence.
Qed.

Lemma trim_right_without_trailing_spaces s :
  trim_right s = Spec.without_trailing_spaces s.
Proof. induction s as [|c s IH]; simpl; [done|]. by rewrite IH. Qed.

Lemma trim_right_nonempty c s : c <> " "%char -> nonempty (trim_right (String c s)) = true.
Proof.
  intros Hc. simpl. destruct (trim_right s); [|done]. by rewrite decide_False.
Qed.

Lemma trim_left_id c s : c <> " "%char -> trim_left (String c s) = String c s.
Proof.
  intros Hc. destruct c as [[] [] [] [] [] [] [] []]; try reflexivity. done.
Qed.

(** The first address of Express's chain is the first entry of the header,
    read as the specification reads it. *)
Lemma head_forwarded_entries h : head (forwarded_entries h) = Spec.first_entry h.
Proof.
  induction h as [|c h IH]; [done|].
  destruct (decide (c = " "%char)) as [->|Hs];
    [by rewrite forwarded_entries_after_space|].
  destruct (decide (c = ","%char)) as [->|Hc];
    [by rewrite forwarded_entries_after_comma|].
  simpl Spec.first_entry. unfold Spec.separator.
  rewrite !bool_decide_eq_false_2 by done. simpl orb. cbv iota.
  pose proof (split_head_before_comma (String c h)) as Hw.
  unfold forwarded_entries.
  destruct (split "," (String c h)) as [|w ws]; [done|].
  injection Hw as ->.
  rewrite fmap_cons, filter_cons.
  destruct (decide (c = ","%char)) as [|_]; [done|].
  unfold compose. rewrite (trim_left_id c _ Hs).
  rewrite decide_True by (by apply trim_right_nonempty).
  cbn [head]. by rewrite trim_right_without_trailing_spaces.
Qed.

Lemma track_ipAddress_client_address req :
  Spec.forwarded_header_trimmed req -> track_ipAddress req = Spec.client_address req.
Proof.
  intros Htrim.
  unfold track_ipAddress, Spec.client_address, ip, proxyaddr, trust_proxy, forwarded.
  rewrite <- head_forwarded_entries.
  rewrite last_forwarded_chain.
  destruct (headers req !! "x-forwarded-for") as [h|] eqn:Hh; simpl.
  - assert (Hor : forwarded_entries (default EmptyString (or_null (Some h))) = forwarded_entries h).
    { unfold or_null, or_else; simpl. by destruct (decide (h = EmptyString)) as [->|]. }
    rewrite Hor.
    destruct (forwarded_entries h) as [|a l] eqn:He; simpl.
    + rewrite (no_entries_first_segment h He (Htrim h Hh)). simpl.
      unfold or_null, or_else. by destruct (falsy (socket_remoteAddress req)).
    + unfold or_else. rewrite (forwarded_entries_nonempty h a); [done|].
      rewrite He. by left.
  - unfold or_null, or_else; simpl. by destruct (falsy (socket_remoteAddress req)).
Qed.

(** C5. The address stored on the record of a tracked click is the first
    entry of the forwarded-for header when the header has one, else the
    peer address of the connection, else null.  The first entry is read
    off the header's text by [Spec.first_entry]; the code gets it from
    Express's [req.ip]. *)
Theorem track_stores_client_address now g d req res d' :
  Spec.forwarded_header_trimmed req ->
  track now g d req = (res, d') -> status res = 201 ->
  exists c, docs d' = (docs d ++ [c])%list /\ ipAddress c = Spec.client_address req.
Proof.
  intros Htrim H Hs.
  destruct (track_created _ _ _ _ _ _ H Hs) as (sc & url & gd & _ & ->).
  eexists. split; [reflexivity|]. simpl.
  by apply track_ipAddress_client_address.
Qed.

(** ** Access control *)

Lemma jwtSecret_configured env :
  falsy (Some (Config.jwtSecret (Config.config env))) = false.
Proof.
  unfold Config.config, Config.env_or, or_null, or_else; simpl.
  destruct (env !! "JWT_SECRET") as [s|]; simpl; [|done].
  destruct (decide (s = EmptyString)) as [->|Hs]; simpl; [done|].
  by destruct (decide (s = EmptyString)).
Qed.

Lemma startsWith_Bearer_nonempty h : startsWith "Bearer " h = true -> falsy (Some h) = false.
Proof. by destruct h. Qed.

Lemma requireAuth_no_bearer env jwt_verify req :
  Spec.no_bearer_token req ->
  Auth.requireAuth env jwt_verify req
  = Respond (reply 401 (Error "Authentication required")).
Proof.
  unfold Spec.no_bearer_token, Auth.requireAuth. intros H.
  destruct (headers req !! "authorization") as [h|]; [|done].
  by rewrite H, orb_true_r.
Qed.

(** C6. Each failure of [requireAuth] is a 401 with its message: no
    [Authorization] header and a header that is not bearer-shaped give
    "Authentication required", a token the verifier rejects with
    [JsonWebTokenError] (bad signature) gives "Invalid token", an expired
    one gives "Token expired"; a verified token lets the request through,
    and the request handed to the next handler has [req.user] equal to
    [{ userId }] of the decoded payload, everything else as it came. *)
Theorem requireAuth_outcomes env jwt_verify (req : Request) :
  (headers req !! "authorization" = None ->
     Auth.requireAuth env jwt_verify req
     = Respond (reply 401 (Error "Authentication required")))
  /\ (forall h, headers req !! "authorization" = Some h ->
        startsWith "Bearer " h = false ->
        Auth.requireAuth env jwt_verify req
        = Respond (reply 401 (Error "Authentication required")))
  /\ (forall h, headers req !! "authorization" = Some h ->
        startsWith "Bearer " h = true ->
        jwt_verify (split " " h !! 1%nat) (Config.jwtSecret (Config.config env))
        = Auth.Thrown "JsonWebTokenError" ->
        Auth.requireAuth env jwt_verify req = Respond (reply 401 (Error "Invalid token")))
  /\ (forall h, headers req !! "authorization" = Some h ->
        startsWith "Bearer " h = true ->
        jwt_verify (split " " h !! 1%nat) (Config.jwtSecret (Config.config env))
        = Auth.Thrown "TokenExpiredError" ->
        Auth.requireAuth env jwt_verify req = Respond (reply 401 (Error "Token expired")))
  /\ (forall h uid, headers req !! "authorization" = Some h ->
        startsWith "Bearer " h = true ->
        jwt_verify (split " " h !! 1%nat) (Config.jwtSecret (Config.config env))
        = Auth.Decoded uid ->
        exists req', Auth.requireAuth env jwt_verify req = Next req'
          /\ user req' = Some {| userId := uid |}
          /\ Spec.same_but_user req req').
Proof.
  unfold Auth.requireAuth. split; [|split; [|split; [|split]]].
  - by intros ->.
  - intros h -> Hb. rewrite Hb. by rewrite orb_true_r.
  - intros h -> Hb Hv. by rewrite Hb, (startsWith_Bearer_nonempty _ Hb), jwtSecret_configured, Hv.
  - intros h -> Hb Hv. by rewrite Hb, (startsWith_Bearer_nonempty _ Hb), jwtSecret_configured, Hv.
  - intros h uid -> Hb Hv.
    rewrite Hb, (startsWith_Bearer_nonempty _ Hb), jwtSecret_configured, Hv.
    eexists. split; [reflexivity|]. split; [reflexivity|]. by repeat split.
Qed.

(** C1. A request without a user bearer token gets 401 "Authentication
    required" and nothing else from the history, daily and geographic
    routes, whatever else it carries (a valid internal key included); the
    handler does not run and the world is unchanged. *)
Theorem user_token_only_routes env jwt_verify (now : Z) (w : World) (req : Request) :
  Spec.no_bearer_token req ->
  history_route env jwt_verify w req = (reply 401 (Error "Authentication required"), w)
  /\ daily_route env jwt_verify now w req = (reply 401 (Error "Authentication required"), w)
  /\ geo_route env jwt_verify w req = (reply 401 (Error "Authentication required"), w).
Proof.
  intros H. unfold history_route, daily_route, geo_route, read_route.
  by rewrite (requireAuth_no_bearer env jwt_verify req H).
Qed.

Lemma requireAuth_outcomes_witness :
  Auth.requireAuth Sample.env Sample.jwt_verify Sample.history_internal_only
  = Respond (reply 401 (Error "Authentication required"))
  /\ Auth.requireAuth Sample.env Sample.jwt_verify
       (Sample.request [("authorization", "NotBearer token")] None "test" [] [])
     = Respond (reply 401 (Error "Authentication required"))
  /\ Auth.requireAuth Sample.env Sample.jwt_verify
       (Sample.request [("authorization", "Bearer invalid.token.here")] None "test" [] [])
     = Respond (reply 401 (Error "Invalid token"))
  /\ Auth.requireAuth Sample.env Sample.jwt_verify
       (Sample.request [("authorization", "Bearer old")] None "test" [] [])
     = Respond (reply 401 (Error "Token expired"))
  /\ (exists req', Auth.requireAuth Sample.env Sample.jwt_verify Sample.history_limit_0
                    = Next req'
         /\ user req' = Some {| userId := Some "user123" |}
         /\ headers req' = headers Sample.history_limit_0).
Proof.
  split; [apply requireAuth_outcomes; reflexivity|].
  split; [eapply (requireAuth_outcomes Sample.env Sample.jwt_verify); reflexivity|].
  split; [eapply (requireAuth_outcomes Sample.env Sample.jwt_verify); reflexivity|].
  split; [eapply (requireAuth_outcomes Sample.env Sample.jwt_verify); reflexivity|].
  destruct (proj2 (proj2 (proj2 (proj2
              (requireAuth_outcomes Sample.env Sample.jwt_verify Sample.history_limit_0))))
              "Bearer good" (Some "user123") eq_refl eq_refl eq_refl)
    as (req' & Hr & Hu & Hh & _).
  exists req'. split; [exact Hr|]. split; [exact Hu|exact Hh].
Defined.

Lemma user_token_only_routes_witness :
  Auth.verifyInternalApiKey Sample.env Sample.history_internal_only = true
  /\ history_route Sample.env Sample.jwt_verify
       (Sample.world Sample.empty_db Sample.ready) Sample.history_internal_only
     = (reply 401 (Error "Authentication required"),
        Sample.world Sample.empty_db Sample.ready).
Proof.
  split; [reflexivity|].
  apply (user_token_only_routes Sample.env Sample.jwt_verify 0
           (Sample.world Sample.empty_db Sample.ready) Sample.history_internal_only).
  exact I.
Defined.

(** ** Aggregation queries *)

Lemma length_insert_by {A} (le : A -> A -> bool) x l :
  length (insert_by le x l) = S (length l).
Proof. induction l as [|y l IH]; simpl; [done|]. destruct (le x y); simpl; lia. Qed.

Lemma length_sort_by {A} (le : A -> A -> bool) l : length (sort_by le l) = length l.
Proof.
  induction l as [|x l IH]; simpl; [done|].
  rewrite length_insert_by. by rewrite IH.
Qed.


(** C2. The cap on the history limit has no lower end, and a limit of 0
    goes through it: [Math.min(parseInt(limit, 10), 100)] is then 0, the
    database reads [.limit(0)] as no limit, and the answer echoes 0 and
    carries the whole collection of the short code, 150 records here,
    past the 100 that the cap is there to enforce. *)
Theorem history_limit_zero_unbounded :
  fst (history_route Sample.env Sample.jwt_verify
         (Sample.world Sample.abc150 Sample.ready) Sample.history_limit_0)
  = reply 200 (History "abc" 150 (JInt 0) (JInt 0) (select_history <$> docs Sample.abc150))
  /\ length (select_history <$> docs Sample.abc150) = 150%nat
  /\ ~ Spec.limit_clamped
        (fst (history_route Sample.env Sample.jwt_verify
                (Sample.world Sample.abc150 Sample.ready) Sample.history_limit_0)).
Proof.
  assert (E : fst (history_route Sample.env Sample.jwt_verify
                    (Sample.world Sample.abc150 Sample.ready) Sample.history_limit_0)
              = reply 200 (History "abc" 150 (JInt 0) (JInt 0)
                             (select_history <$> docs Sample.abc150)))
    by (by vm_compute).
  split; [exact E|]. split; [by vm_compute|].
  rewrite E. intros (n & [= <-] & Hn & _). lia.
Qed.




(** *** Point stats *)

(** What a route guarded by [allowInternalService] answers. *)
Lemma allowInternalService_route env jwt_verify handler w req :
  let res := fst (read_route (Auth.allowInternalService env jwt_verify) handler w req) in
  (exists req', res = handler (db w) req'
                /\ params_shortCode req' = params_shortCode req)
  \/ Spec.refused res.
Proof.
  unfold read_route, Auth.allowInternalService, Auth.requireAuth, RateLimit.run,
    RateLimit.skip, Spec.refused.
  destruct (Auth.verifyInternalApiKey env req); [left; simpl; eauto|].
  destruct (headers req !! "authorization") as [h|]; [|right; simpl; eauto].
  destruct (falsy (Some h) || negb (startsWith "Bearer " h))%bool; [right; simpl; eauto|].
  destruct (falsy (Some (Config.jwtSecret (Config.config env)))); [right; simpl; eauto|].
  destruct (jwt_verify _ _) as [uid|name].
  - destruct (isInternalService _); [left; simpl; eauto|].
    destruct (Nat.ltb _ _); [right|left]; simpl; eauto.
  - repeat (destruct (decide _)); right; simpl; eauto.
Qed.

Lemma filter_no_clicks d code (f : Click -> bool) :
  Spec.no_clicks d code -> (forall c, f c = true -> by_code code c = true) ->
  filter (fun c => f c = true) (docs d) = [].
Proof.
  unfold Spec.no_clicks. intros Hn Hf.
  induction (docs d) as [|c l IH]; [done|].
  rewrite filter_cons. destruct (decide (f c = true)) as [Hc|_].
  - apply Hf in Hc. unfold by_code in Hc.
    destruct (decide (shortCode c = code)) as [E|]; [|done].
    exfalso. apply (Hn c); [left|done].
  - apply IH. intros c' Hc'. apply Hn. by right.
Qed.

Lemma stats_no_clicks now1 now2 d req :
  Spec.no_clicks d (params_shortCode req) -> online d = true ->
  stats now1 now2 d req = reply 200 (Stats (params_shortCode req) 0 0 0 None).
Proof.
  intros Hn Hon. unfold stats, countDocuments, findOne_newest, guard. rewrite Hon.
  rewrite !(filter_no_clicks d (params_shortCode req)); try done.
  - unfold by_code_since. by intros c [H _]%andb_prop.
  - unfold by_code_since. by intros c [H _]%andb_prop.
Qed.

Lemma stats_status now1 now2 d req :
  status (stats now1 now2 d req) = 200 \/ status (stats now1 now2 d req) = 500.
Proof.
  unfold stats, countDocuments, findOne_newest, guard.
  destruct (online d); simpl; auto.
Qed.

(** C8. For a short code without clicks the point-stats operation answers
    200 with zero counters and no last click; the route never answers 404,
    and whenever it answers 200 for such a code the body is the all-zero
    one. *)
Theorem stats_unknown_short_code env jwt_verify (now1 now2 : Z) (w : World) (req : Request) :
  Spec.no_clicks (db w) (params_shortCode req) ->
  (online (db w) = true ->
     stats now1 now2 (db w) req = reply 200 (Stats (params_shortCode req) 0 0 0 None))
  /\ status (fst (stats_route env jwt_verify now1 now2 w req)) <> 404
  /\ (status (fst (stats_route env jwt_verify now1 now2 w req)) = 200 ->
        json (fst (stats_route env jwt_verify now1 now2 w req))
        = Stats (params_shortCode req) 0 0 0 None).
Proof.
  intros Hn. split; [by apply stats_no_clicks|].
  unfold stats_route.
  destruct (allowInternalService_route env jwt_verify (stats now1 now2) w req)
    as [(req' & -> & Hp)|[_ Hs]].
  - split.
    + destruct (stats_status now1 now2 (db w) req') as [-> | ->]; lia.
    + intros H200. rewrite <- Hp in Hn |- *.
      destruct (online (db w)) eqn:Hon.
      * by rewrite (stats_no_clicks _ _ _ _ Hn Hon).
      * unfold stats, countDocuments, guard in H200. rewrite Hon in H200. done.
  - split; [lia|]. intros H200. lia.
Qed.

Lemma stats_unknown_short_code_witness :
  stats 1700000000000 1700000000001
    {| docs := [Sample.click_abc]; next_id := 1; online := true |} Sample.stats_never_seen
  = reply 200 (Stats "never-seen" 0 0 0 None)
  /\ status (fst (stats_route Sample.env Sample.jwt_verify 1700000000000 1700000000001
                    (Sample.world {| docs := [Sample.click_abc]; next_id := 1; online := true |}
                       Sample.ready)
                    Sample.stats_never_seen)) <> 404.
Proof.
  destruct (stats_unknown_short_code Sample.env Sample.jwt_verify
              1700000000000 1700000000001
              (Sample.world {| docs := [Sample.click_abc]; next_id := 1; online := true |}
                 Sample.ready)
              Sample.stats_never_seen) as (H1 & H2 & _).
  - intros c Hc. apply list_elem_of_singleton in Hc. subst c. simpl. discriminate.
  - split; [exact (H1 eq_refl)|exact H2].
Defined.

Lemma filter_length_le {A} (f g : A -> bool) (l : list A) :
  (forall x, f x = true -> g x = true) ->
  (length (filter (fun x => f x = true) l) <= length (filter (fun x => g x = true) l))%nat.
Proof.
  intros Hfg. induction l as [|x l IH]; [done|].
  rewrite !filter_cons.
  destruct (decide (f x = true)) as [Hf|Hf].
  - rewrite decide_True by auto. simpl. lia.
  - destruct (decide (g x = true)); simpl; lia.
Qed.

Lemma stats_ordered now1 now2 d req code total l24 l7 last :
  now2 - now1 <= 6 * 24 * 60 * 60 * 1000 ->
  stats now1 now2 d req = reply 200 (Stats code total l24 l7 last) ->
  (l24 <= l7 <= total)%nat.
Proof.
  unfold stats, countDocuments, findOne_newest, guard. intros Hclock H.
  destruct (online d); [|done]. injection H as _ <- <- <- _.
  split; apply filter_length_le; unfold by_code_since; intros c [Hc Ht]%andb_prop.
  - apply andb_true_intro. split; [done|]. apply Z.leb_le in Ht. apply Z.leb_le. lia.
  - done.
Qed.

(** C9. The counters of the point stats are ordered: last24Hours is at
    most last7Days, which is at most totalClicks.  The two thresholds come
    from two readings of the clock; the second is taken to be less than six
    days after the first. *)
Theorem stats_counters_ordered env jwt_verify (now1 now2 : Z) (w : World) (req : Request)
    code total l24 l7 last :
  now2 - now1 <= 6 * 24 * 60 * 60 * 1000 ->
  json (fst (stats_route env jwt_verify now1 now2 w req)) = Stats code total l24 l7 last ->
  (l24 <= l7 <= total)%nat.
Proof.
  intros Hclock H. unfold stats_route in H.
  destruct (allowInternalService_route env jwt_verify (stats now1 now2) w req)
    as [(req' & E & _)|[[e He] _]].
  - rewrite E in H. apply (stats_ordered now1 now2 (db w) req' code total l24 l7 last Hclock).
    destruct (stats_status now1 now2 (db w) req') as [Hs|Hs];
      destruct (stats now1 now2 (db w) req') as [st js] eqn:Er; simpl in *; subst; [done|].
    unfold stats, countDocuments, findOne_newest, guard in Er.
    destruct (online (db w)); inversion Er.
  - rewrite He in H. done.
Qed.

Lemma stats_counters_ordered_witness :
  json (fst (stats_route Sample.env Sample.jwt_verify
               (1700000000000 + 2 * 24 * 60 * 60 * 1000)
               (1700000000000 + 2 * 24 * 60 * 60 * 1000 + 5)
               (Sample.world {| docs := [Sample.click_abc]; next_id := 1; online := true |}
                  Sample.ready)
               (Sample.request [("x-internal-api-key", Sample.internal_key)]
                  (Some "10.0.0.7") "abc" [] [])))
  = Stats "abc" 1 0 1 (Some 1700000000000)
  /\ (0 <= 1 <= 1)%nat.
Proof.
  assert (E : json (fst (stats_route Sample.env Sample.jwt_verify
               (1700000000000 + 2 * 24 * 60 * 60 * 1000)
               (1700000000000 + 2 * 24 * 60 * 60 * 1000 + 5)
               (Sample.world {| docs := [Sample.click_abc]; next_id := 1; online := true |}
                  Sample.ready)
               (Sample.request [("x-internal-api-key", Sample.internal_key)]
                  (Some "10.0.0.7") "abc" [] [])))
              = Stats "abc" 1 0 1 (Some 1700000000000)) by (by vm_compute).
  split; [exact E|].
  eapply stats_counters_ordered; [|exact E]. lia.
Defined.

(** *** Validation of a submission *)

Lemma falsy_empty_field (m : gmap string string) f :
  m !! f = Some EmptyString -> falsy (m !! f) = true /\ falsy (delete f m !! f) = true.
Proof. intros ->. by rewrite lookup_delete_eq. Qed.

Lemma track_empty_short_code now g d req :
  falsy (body req !! "short_code") = true ->
  track now g d req = (reply 400 (Error "short_code and original_url are required"), d).
Proof. unfold track. by intros ->. Qed.

Lemma track_empty_original_url now g d req :
  falsy (body req !! "original_url") = true ->
  track now g d req = (reply 400 (Error "short_code and original_url are required"), d).
Proof. unfold track. intros ->. by rewrite orb_true_r. Qed.

Ltac refuse := simpl; split; [done|right; split; [eexists; reflexivity|auto]].

Lemma track_route_db env jwt_verify now w req :
  (forall r, body r = body req ->
     track now (geo w) (db w) r
     = (reply 400 (Error "short_code and original_url are required"), db w)) ->
  db (snd (track_route env jwt_verify now w req)) = db w
  /\ (fst (track_route env jwt_verify now w req)
       = reply 400 (Error "short_code and original_url are required")
      \/ Spec.refused (fst (track_route env jwt_verify now w req))).
Proof.
  intros Hany.
  unfold track_route, Auth.allowInternalService, Auth.requireAuth, RateLimit.run,
    RateLimit.skip, Spec.refused.
  destruct (Auth.verifyInternalApiKey env req).
  { simpl. rewrite Hany by done. simpl. auto. }
  destruct (headers req !! "authorization") as [h|]; [|refuse].
  destruct (falsy (Some h) || negb (startsWith "Bearer " h))%bool; [refuse|].
  destruct (falsy (Some (Config.jwtSecret (Config.config env)))); [refuse|].
  destruct (jwt_verify _ _) as [uid|name].
  - destruct (isInternalService _).
    + rewrite Hany by done. simpl. auto.
    + destruct (Nat.ltb _ _); [refuse|]. rewrite Hany by done. simpl. auto.
  - repeat (destruct (decide _)); refuse.
Qed.

(** C10. A submission whose [short_code] or [original_url] is the empty
    string is refused like one without the field: the handler answers 400
    with the same body in both cases and leaves the store as it was, and
    the track route writes no record for such a request. *)
Theorem track_empty_field_rejected env jwt_verify (now : Z) (w : World) (req : Request)
    (f : string) :
  f = "short_code" \/ f = "original_url" ->
  body req !! f = Some EmptyString ->
  track now (geo w) (db w) req
  = (reply 400 (Error "short_code and original_url are required"), db w)
  /\ track now (geo w) (db w) (Spec.without_field f req)
     = (reply 400 (Error "short_code and original_url are required"), db w)
  /\ db (snd (track_route env jwt_verify now w req)) = db w
  /\ (fst (track_route env jwt_verify now w req)
       = reply 400 (Error "short_code and original_url are required")
      \/ Spec.refused (fst (track_route env jwt_verify now w req))).
Proof.
  intros Hf Hempty.
  destruct (falsy_empty_field (body req) f Hempty) as [H1 H2].
  assert (Hany : forall r, body r = body req ->
            track now (geo w) (db w) r
            = (reply 400 (Error "short_code and original_url are required"), db w)).
  { intros r Hr.
    destruct Hf as [-> | ->];
      [apply track_empty_short_code|apply track_empty_original_url]; by rewrite Hr. }
  split; [by apply Hany|]. split.
  - destruct Hf as [-> | ->];
      [apply track_empty_short_code|apply track_empty_original_url]; exact H2.
  - by apply track_route_db.
Qed.

Lemma track_empty_field_rejected_witness :
  track_route Sample.env Sample.jwt_verify 1700000000000
    (Sample.world Sample.empty_db Sample.ready) Sample.track_empty_code
  = (reply 400 (Error "short_code and original_url are required"),
     Sample.world Sample.empty_db Sample.ready)
  /\ db (snd (track_route Sample.env Sample.jwt_verify 1700000000000
                 (Sample.world Sample.empty_db Sample.ready) Sample.track_empty_code))
     = Sample.empty_db.
Proof.
  split; [by vm_compute|].
  apply (track_empty_field_rejected Sample.env Sample.jwt_verify 1700000000000
           (Sample.world Sample.empty_db Sample.ready) Sample.track_empty_code "short_code");
    [by left|reflexivity].
Defined.

Lemma track_stores_client_address_witness :
  headers Sample.track_relayed !! "x-forwarded-for" = Some "8.8.8.8, 10.0.0.1"
  /\ exists c, docs (snd (track 1700000000000 Sample.ready Sample.empty_db
                            (set_isInternalService Sample.track_relayed)))
               = (docs Sample.empty_db ++ [c])%list
       /\ ipAddress c = Some "8.8.8.8".
Proof.
  split; [reflexivity|].
  destruct (track_stores_client_address 1700000000000 Sample.ready Sample.empty_db
              (set_isInternalService Sample.track_relayed)
              (reply 201 (Tracked "Click tracked successfully" 0))
              {| docs := [Sample.click_abc]; next_id := 1; online := true |})
    as (c & Hd & Hc).
  - intros h Hh. vm_compute in Hh. injection Hh as <-. reflexivity.
  - reflexivity.
  - reflexivity.
  - exists c. split; [exact Hd|]. rewrite Hc. reflexivity.
Defined.

(** The caps on concrete requests: a limit of 200 is echoed as 100, 200
    days as 90, and the defaults are 100 and 30. *)
Example cappedLimit_200 :
  cappedLimit (Sample.request [] None "history123" [("limit", "200")] []) = JInt 100.
Proof. reflexivity. Qed.
Example cappedLimit_default :
  cappedLimit (Sample.request [] None "history123" [] []) = JInt 100.
Proof. reflexivity. Qed.
Example cappedLimit_10 :
  cappedLimit (Sample.request [] None "history123" [("limit", "10")] []) = JInt 10.
Proof. reflexivity. Qed.
Example cappedDays_200 :
  cappedDays (Sample.request [] None "daily123" [("days", "200")] []) = JInt 90.
Proof. reflexivity. Qed.
Example cappedDays_default :
  cappedDays (Sample.request [] None "daily123" [] []) = JInt 30.
Proof. reflexivity. Qed.

(** The scenarios of the specification and of the test suite. *)
Example scenario_A :
  let '(r1, w1) := track_route Sample.env Sample.jwt_verify Sample.now
                     (Sample.world Sample.empty_db Sample.disabled) Sample.track_abc in
  status r1 = 201
  /\ fst (stats_route Sample.env Sample.jwt_verify (Sample.now + 5) (Sample.now + 6) w1
            (Sample.request [("x-internal-api-key", Sample.internal_key)]
               (Some "10.0.0.7") "abc" [] []))
     = reply 200 (Stats "abc" 1 1 1 (Some Sample.now)).
Proof. by vm_compute. Qed.

Example stats_three_clicks :
  stats (Sample.now + 5) (Sample.now + 6) Sample.stats123 (Sample.user_request "stats123" [])
  = reply 200 (Stats "stats123" 3 2 3 (Some Sample.now)).
Proof. by vm_compute. Qed.

Example scenario_C_first_page :
  match json (history Sample.history123
                (Sample.user_request "history123" [("limit", "10"); ("offset", "0")])) with
  | History _ total limit offset clicks =>
      total = 15%nat /\ limit = JInt 10 /\ offset = JInt 0 /\ length clicks = 10%nat
      /\ h_timestamp <$> head clicks = Some Sample.now
  | _ => False
  end.
Proof. by vm_compute. Qed.

Example scenario_C_second_page :
  match json (history Sample.history123
                (Sample.user_request "history123" [("limit", "10"); ("offset", "10")])) with
  | History _ total _ offset clicks =>
      total = 15%nat /\ offset = JInt 10 /\ length clicks = 5%nat
  | _ => False
  end.
Proof. by vm_compute. Qed.

Example geo_breakdown :
  geo_stats Sample.geo123 (Sample.user_request "geo123" [])
  = reply 200
      (Geo "geo123" 4 3
         [(Some "United States", Some "US", 2%nat); (Some "Germany", Some "DE", 1%nat)]
         [(Some "New York", Some "United States", 1%nat);
          (Some "Los Angeles", Some "United States", 1%nat);
          (Some "Berlin", Some "Germany", 1%nat)]).
Proof. by vm_compute. Qed.

Example daily_series :
  daily (Sample.now + 5) Sample.stats123 (Sample.user_request "stats123" [("days", "7")])
  = reply 200 (Daily "stats123" (JInt 7) [(19672, 1%nat); (19675, 2%nat)]).
Proof. by vm_compute. Qed.

(** A number of days so far below zero that the start date leaves the
    range of dates: the pipeline receives the epoch, and every click of
    the short code is in the series. *)
Example daily_series_invalid_start :
  startDate Sample.now (Sample.user_request "stats123" [("days", "-100000000")]) = 0
  /\ daily Sample.now Sample.stats123
       (Sample.user_request "stats123" [("days", "-100000000")])
     = reply 200 (Daily "stats123" (JInt (-100000000)) [(19672, 1%nat); (19675, 2%nat)]).
Proof. by vm_compute. Qed.

(** * Further properties of the service *)

(** ** User-agent classification *)

Example parseBrowser_tests :
  Metrics.parseBrowser (Some "Mozilla/5.0 (Windows NT 10.0; Win64; x64) AppleWebKit/537.36 (KHTML, like Gecko) Chrome/120.0.0.0 Safari/537.36") = "Chrome"
  /\ Metrics.parseBrowser (Some "Mozilla/5.0 (Windows NT 10.0; Win64; x64) AppleWebKit/537.36 (KHTML, like Gecko) Chrome/120.0.0.0 Safari/537.36 Edg/120.0.0.0") = "Edge"
  /\ Metrics.parseBrowser (Some "Mozilla/5.0 (Windows NT 10.0; WOW64; Trident/7.0; rv:11.0) like Gecko") = "IE"
  /\ Metrics.parseBrowser (Some "Mozilla/5.0 (Linux) Opera/9.80") = "Opera"
  /\ Metrics.parseBrowser None = "unknown"
  /\ Metrics.parseBrowser (Some "Some random user agent string") = "other".
Proof. by vm_compute. Qed.

Example parseDevice_tests :
  Metrics.parseDevice (Some "Mozilla/5.0 (iPhone; CPU iPhone OS 17_2 like Mac OS X) AppleWebKit/605.1.15 Mobile/15E148") = "mobile"
  /\ Metrics.parseDevice (Some "Mozilla/5.0 (iPad; CPU OS 17_2 like Mac OS X) AppleWebKit/605.1.15") = "tablet"
  /\ Metrics.parseDevice (Some "Mozilla/5.0 (compatible; Googlebot/2.1; +http://www.google.com/bot.html)") = "bot"
  /\ Metrics.parseDevice (Some "Spider/2.0") = "bot"
  /\ Metrics.parseDevice (Some "Mozilla/5.0 (Windows NT 10.0; Win64; x64) AppleWebKit/537.36") = "desktop"
  /\ Metrics.parseDevice None = "unknown".
Proof. by vm_compute. Qed.

Lemma lower_char_idem c : Metrics.lower_char (Metrics.lower_char c) = Metrics.lower_char c.
Proof. destruct c as [[] [] [] [] [] [] [] []]; reflexivity. Qed.

Lemma toLowerCase_idem s : Metrics.toLowerCase (Metrics.toLowerCase s) = Metrics.toLowerCase s.
Proof. induction s as [|c s IH]; simpl; [done|]. by rewrite lower_char_idem, IH. Qed.

Lemma toLowerCase_app s t :
  Metrics.toLowerCase (s ++ t) = Metrics.toLowerCase s ++ Metrics.toLowerCase t.
Proof.
  induction s as [|c s IH]; [done|].
  rewrite append_cons. simpl. by rewrite append_cons, IH.
Qed.

Lemma falsy_toLowerCase s : falsy (Some (Metrics.toLowerCase s)) = falsy (Some s).
Proof. by destruct s. Qed.

Lemma startsWith_app p t : startsWith p (p ++ t) = true.
Proof.
  induction p as [|c p IH]; [done|].
  rewrite append_cons. simpl. by rewrite decide_True.
Qed.

Lemma includes_app sub a b : Metrics.includes sub (a ++ sub ++ b) = true.
Proof.
  induction a as [|c a IH].
  - rewrite append_nil. destruct (sub ++ b) eqn:E; simpl; rewrite <- E, startsWith_app; done.
  - rewrite append_cons. simpl. rewrite IH. by destruct (startsWith sub _).
Qed.

(** X1. The classifiers answer from fixed label sets, and the label
    [unknown] stands exactly for a missing or empty user agent. *)
Theorem user_agent_labels (ua : option string) :
  In (Metrics.parseBrowser ua)
     ["unknown"; "Firefox"; "Edge"; "Chrome"; "Safari"; "Opera"; "IE"; "other"]
  /\ In (Metrics.parseDevice ua) ["unknown"; "mobile"; "tablet"; "bot"; "desktop"]
  /\ (Metrics.parseBrowser ua = "unknown" <-> falsy ua = true)
  /\ (Metrics.parseDevice ua = "unknown" <-> falsy ua = true).
Proof.
  unfold Metrics.parseBrowser, Metrics.parseDevice.
  destruct (falsy ua); [simpl; tauto|].
  repeat split;
    repeat match goal with
      | |- context [if ?b then _ else _] => destruct b
      end; simpl; try tauto; try done.
Qed.

(** X2. The classification ignores letter case: two user agents that differ
    only in case get the same browser and the same device. *)
Theorem user_agent_case_insensitive (s1 s2 : string) :
  Metrics.toLowerCase s1 = Metrics.toLowerCase s2 ->
  Metrics.parseBrowser (Some s1) = Metrics.parseBrowser (Some s2)
  /\ Metrics.parseDevice (Some s1) = Metrics.parseDevice (Some s2).
Proof.
  intros H. unfold Metrics.parseBrowser, Metrics.parseDevice.
  rewrite <- (falsy_toLowerCase s1), <- (falsy_toLowerCase s2). simpl default.
  by rewrite H.
Qed.

Lemma user_agent_case_insensitive_witness :
  Metrics.parseBrowser (Some "MOZILLA/5.0 FIREFOX/121.0")
  = Metrics.parseBrowser (Some "Mozilla/5.0 Firefox/121.0").
Proof.
  apply (user_agent_case_insensitive "MOZILLA/5.0 FIREFOX/121.0" "Mozilla/5.0 Firefox/121.0").
  reflexivity.
Defined.

(** X3. The first rule wins: a user agent that contains [firefox] in any
    letter case is Firefox whatever else it names, and one that contains
    [mobile] is a mobile device even when it also names a tablet. *)
Theorem user_agent_first_rule_wins (x w y : string) :
  (Metrics.toLowerCase w = "firefox" ->
     Metrics.parseBrowser (Some (x ++ w ++ y)) = "Firefox")
  /\ (Metrics.toLowerCase w = "mobile" ->
        Metrics.parseDevice (Some (x ++ w ++ y)) = "mobile").
Proof.
  assert (Hne : w <> EmptyString -> falsy (Some (x ++ w ++ y)) = false).
  { intros Hw. destruct x; [|done]. rewrite append_nil. by destruct w. }
  split; intros Hw.
  - unfold Metrics.parseBrowser. rewrite Hne by (by intros ->). simpl default.
    by rewrite !toLowerCase_app, Hw, includes_app.
  - unfold Metrics.parseDevice. rewrite Hne by (by intros ->). simpl default.
    by rewrite !toLowerCase_app, Hw, includes_app.
Qed.

Lemma user_agent_first_rule_wins_witness :
  Metrics.parseBrowser (Some ("Mozilla/5.0 Chrome/1 " ++ "FireFox" ++ "/121.0")) = "Firefox"
  /\ Metrics.parseDevice (Some ("Tablet; Android 14 " ++ "Mobile" ++ " Safari")) = "mobile".
Proof.
  split.
  - apply (user_agent_first_rule_wins "Mozilla/5.0 Chrome/1 " "FireFox" "/121.0"). reflexivity.
  - apply (user_agent_first_rule_wins "Tablet; Android 14 " "Mobile" " Safari"). reflexivity.
Defined.

(** ** Configuration and access control *)

Lemma env_or_nonempty env name fallback :
  fallback <> EmptyString -> Config.env_or env name fallback <> EmptyString.
Proof.
  unfold Config.env_or, or_null, or_else. intros Hf.
  destruct (env !! name) as [s|]; simpl; [|done].
  by destruct (decide (s = EmptyString)).
Qed.

(** X4. The secrets are never empty: a variable that is set and not empty
    is used as it is, and an unset or empty [JWT_SECRET] or
    [INTERNAL_API_KEY] falls back to the built-in value. *)
Theorem config_secrets_fallback (env : gmap string string) :
  Config.jwtSecret (Config.config env) <> EmptyString
  /\ Config.internalApiKey (Config.config env) <> EmptyString
  /\ (forall s, env !! "JWT_SECRET" = Some s -> s <> EmptyString ->
        Config.jwtSecret (Config.config env) = s)
  /\ (forall s, env !! "INTERNAL_API_KEY" = Some s -> s <> EmptyString ->
        Config.internalApiKey (Config.config env) = s)
  /\ (env !! "JWT_SECRET" = None \/ env !! "JWT_SECRET" = Some EmptyString ->
        Config.jwtSecret (Config.config env)
        = "your-super-secret-jwt-key-change-in-production")
  /\ (env !! "INTERNAL_API_KEY" = None \/ env !! "INTERNAL_API_KEY" = Some EmptyString ->
        Config.internalApiKey (Config.config env)
        = "internal-service-key-change-in-production").
Proof.
  repeat split; try (by apply env_or_nonempty);
    unfold Config.config, Config.env_or, or_null, or_else; simpl.
  - intros s -> Hs. simpl. by destruct (decide (s = EmptyString)).
  - intros s -> Hs. simpl. by destruct (decide (s = EmptyString)).
  - by intros [-> | ->].
  - by intros [-> | ->].
Qed.

Lemma config_secrets_fallback_witness :
  Config.jwtSecret (Config.config {["JWT_SECRET" := "s3cret"]}) = "s3cret"
  /\ Config.jwtSecret (Config.config {["JWT_SECRET" := EmptyString]})
     = "your-super-secret-jwt-key-change-in-production".
Proof.
  split.
  - apply (config_secrets_fallback {["JWT_SECRET" := "s3cret"]}); [reflexivity|done].
  - apply (config_secrets_fallback {["JWT_SECRET" := EmptyString]}). by right.
Defined.

(** X5. [optionalAuth] never rejects: it always calls [next()], changing
    nothing of the request but [req.user], and [req.user] is set only from
    a bearer token that the verifier decoded. *)
Theorem optionalAuth_never_rejects env jwt_verify (req : Request) :
  (exists req', Auth.optionalAuth env jwt_verify req = Next req'
     /\ (req' = clear_user req \/ exists u, req' = set_user u req))
  /\ (forall req' u, Auth.optionalAuth env jwt_verify req = Next req' ->
        user req' = Some u ->
        exists h, headers req !! "authorization" = Some h
          /\ startsWith "Bearer " h = true
          /\ jwt_verify (split " " h !! 1%nat) (Config.jwtSecret (Config.config env))
             = Auth.Decoded (userId u)).
Proof.
  unfold Auth.optionalAuth.
  destruct (headers req !! "authorization") as [h|]; [|split; [eauto|by intros ? ? [= <-]]].
  destruct (startsWith "Bearer " h) eqn:Hb.
  2: { rewrite orb_true_r. split; [eauto|by intros ? ? [= <-]]. }
  rewrite (startsWith_Bearer_nonempty _ Hb). simpl orb. cbv iota.
  destruct (jwt_verify _ _) as [uid|name] eqn:Hv.
  - split; [eauto|]. intros ? u [= <-] [= <-]. eauto.
  - split; [eauto|by intros ? ? [= <-]].
Qed.

Lemma optionalAuth_never_rejects_witness :
  exists h, headers Sample.history_limit_0 !! "authorization" = Some h
    /\ startsWith "Bearer " h = true
    /\ Sample.jwt_verify (split " " h !! 1%nat)
         (Config.jwtSecret (Config.config Sample.env))
       = Auth.Decoded (Some "user123").
Proof.
  apply (proj2 (optionalAuth_never_rejects Sample.env Sample.jwt_verify Sample.history_limit_0)
           (set_user {| userId := Some "user123" |} Sample.history_limit_0)
           {| userId := Some "user123" |}); reflexivity.
Defined.

Lemma verifyInternalApiKey_spec env req :
  Auth.verifyInternalApiKey env req = true
  <-> headers req !! "x-internal-api-key" = Some (Config.internalApiKey (Config.config env)).
Proof.
  unfold Auth.verifyInternalApiKey.
  destruct (headers req !! "x-internal-api-key") as [k|]; [|done].
  split.
  - intros [_ H]%andb_prop. apply bool_decide_eq_true in H. by subst.
  - intros [= ->]. apply andb_true_intro. split; [|by apply bool_decide_eq_true].
    unfold falsy. rewrite decide_False; [done|]. apply env_or_nonempty. done.
Qed.

Lemma requireAuth_keeps_status env jwt_verify req req' :
  Auth.requireAuth env jwt_verify req = Next req' ->
  isInternalService req' = isInternalService req.
Proof.
  unfold Auth.requireAuth.
  destruct (headers req !! "authorization") as [h|]; [|done].
  destruct (falsy (Some h) || negb (startsWith "Bearer " h))%bool; [done|].
  destruct (falsy (Some (Config.jwtSecret (Config.config env)))); [done|].
  destruct (jwt_verify _ _); [by intros [= <-]|].
  by repeat destruct (decide _).
Qed.

(** X6. Only the configured key gives the status of an internal service:
    [allowInternalService] marks a request internal exactly when its
    [x-internal-api-key] header equals the key, and then it lets the request
    through without looking at the [Authorization] header. *)
Theorem internal_status_needs_key env jwt_verify (req : Request) :
  isInternalService req = false ->
  ((exists req', Auth.allowInternalService env jwt_verify req = Next req'
                 /\ isInternalService req' = true)
   <-> headers req !! "x-internal-api-key"
       = Some (Config.internalApiKey (Config.config env)))
  /\ (headers req !! "x-internal-api-key"
      = Some (Config.internalApiKey (Config.config env)) ->
      Auth.allowInternalService env jwt_verify req = Next (set_isInternalService req)).
Proof.
  intros Hreq. unfold Auth.allowInternalService.
  destruct (Auth.verifyInternalApiKey env req) eqn:Hk.
  - apply verifyInternalApiKey_spec in Hk. split; [|done]. split; [done|eauto].
  - assert (Hn : headers req !! "x-internal-api-key"
                 <> Some (Config.internalApiKey (Config.config env))).
    { intros H%verifyInternalApiKey_spec. congruence. }
    split; [|done]. split; [|done].
    intros (req' & H & Hi). apply requireAuth_keeps_status in H. congruence.
Qed.

Lemma internal_status_needs_key_witness :
  Auth.allowInternalService Sample.env Sample.jwt_verify Sample.history_internal_only
  = Next (set_isInternalService Sample.history_internal_only).
Proof.
  apply (internal_status_needs_key Sample.env Sample.jwt_verify Sample.history_internal_only);
    reflexivity.
Defined.

(** X7. Without credentials nothing happens: a request with neither the
    internal key nor a bearer token gets 401 from the track and the stats
    routes, no record is written and no counter moves. *)
Theorem no_credentials_rejected env jwt_verify (now1 now2 : Z) (w : World) (req : Request) :
  Auth.verifyInternalApiKey env req = false ->
  Spec.no_bearer_token req ->
  track_route env jwt_verify now1 w req
  = (reply 401 (Error "Authentication required"), w)
  /\ stats_route env jwt_verify now1 now2 w req
     = (reply 401 (Error "Authentication required"), w).
Proof.
  intros Hk Hb.
  unfold track_route, stats_route, read_route, Auth.allowInternalService.
  by rewrite Hk, (requireAuth_no_bearer env jwt_verify req Hb).
Qed.

Lemma no_credentials_rejected_witness :
  track_route Sample.env Sample.jwt_verify Sample.now
    (Sample.world Sample.empty_db Sample.ready)
    (Sample.request [("x-internal-api-key", "wrong-key")] None EmptyString []
       [("short_code", "abc"); ("original_url", "https://x.com")])
  = (reply 401 (Error "Authentication required"), Sample.world Sample.empty_db Sample.ready).
Proof.
  apply (no_credentials_rejected Sample.env Sample.jwt_verify Sample.now Sample.now
           (Sample.world Sample.empty_db Sample.ready)
           (Sample.request [("x-internal-api-key", "wrong-key")] None EmptyString []
              [("short_code", "abc"); ("original_url", "https://x.com")])).
  - reflexivity.
  - exact I.
Defined.

(** ** Rate limiting *)

Lemma run_hits l hits r :
  snd (RateLimit.run l hits r)
  = if isInternalService r then hits
    else <[ip r := S (default 0%nat (hits !! ip r))]> hits.
Proof.
  unfold RateLimit.run, RateLimit.skip.
  destruct (isInternalService r); [done|]. by destruct (Nat.ltb _ _).
Qed.

Lemma after_count l reqs hits a :
  default 0%nat (RateLimit.after l hits reqs !! a)
  = (default 0%nat (hits !! a) + Spec.calls a reqs)%nat.
Proof.
  unfold RateLimit.after, Spec.calls, RateLimit.Hits in *.
  revert hits. induction reqs as [|r reqs IH]; intros hits; simpl; [lia|].
  rewrite IH, run_hits, filter_cons. unfold RateLimit.Hits in *.
  destruct (isInternalService r) eqn:Hi.
  - rewrite decide_False by (intros [? _]; done). done.
  - destruct (decide (ip r = a)) as [<-|Hne].
    + rewrite decide_True by done. rewrite lookup_insert_eq. simpl. lia.
    + rewrite decide_False by (intros [_ ?]; done). by rewrite lookup_insert_ne.
Qed.

(** X8. Within a window a caller is refused exactly when it has already
    made [max] requests: after any sequence of requests, the next request
    of a caller that is not internal gets 429 with the limiter's message if
    the sequence holds at least [max] counted requests from its address,
    and passes otherwise.  Requests of other addresses and of internal
    services do not count. *)
Theorem limiter_refuses_after_max (l : RateLimit.Limiter) (reqs : list Request)
    (r : Request) :
  isInternalService r = false ->
  fst (RateLimit.run l (RateLimit.after l ∅ reqs) r)
  = if Nat.leb (RateLimit.max l) (Spec.calls (ip r) reqs)
    then Respond (reply 429 (Error (RateLimit.message l)))
    else Next r.
Proof.
  intros Hi. unfold RateLimit.run, RateLimit.skip. rewrite Hi.
  rewrite after_count. unfold RateLimit.Hits. rewrite lookup_empty. simpl.
  destruct (Nat.leb_spec (RateLimit.max l) (Spec.calls (ip r) reqs));
    destruct (Nat.ltb_spec (RateLimit.max l) (S (Spec.calls (ip r) reqs))); try lia; done.
Qed.

Lemma limiter_refuses_after_max_witness :
  fst (RateLimit.run RateLimit.trackLimiter
         (RateLimit.after RateLimit.trackLimiter ∅
            (replicate 60 (Sample.user_request "abc" [])
             ++ [Sample.request [] (Some "198.51.100.2") "abc" [] []])%list)
         (Sample.user_request "abc" []))
  = Respond (reply 429 (Error "Too many tracking requests."))
  /\ fst (RateLimit.run RateLimit.trackLimiter
            (RateLimit.after RateLimit.trackLimiter ∅
               (replicate 60 (Sample.user_request "abc" [])))
            (Sample.request [] (Some "198.51.100.2") "abc" [] []))
     = Next (Sample.request [] (Some "198.51.100.2") "abc" [] []).
Proof.
  split.
  - apply (limiter_refuses_after_max RateLimit.trackLimiter
             (replicate 60 (Sample.user_request "abc" [])
              ++ [Sample.request [] (Some "198.51.100.2") "abc" [] []])%list
             (Sample.user_request "abc" [])).
    reflexivity.
  - apply (limiter_refuses_after_max RateLimit.trackLimiter
             (replicate 60 (Sample.user_request "abc" []))
             (Sample.request [] (Some "198.51.100.2") "abc" [] [])).
    reflexivity.
Defined.

Lemma set_apiHits_same w : set_apiHits (apiHits w) w = w.
Proof. by destruct w. Qed.

Lemma set_trackHits_same w : set_trackHits (trackHits w) w = w.
Proof. by destruct w. Qed.

(** X9. A caller with the internal key is never rate limited: whatever the
    counters hold, the stats and track routes run their handlers and leave
    both limiters' counters as they were. *)
Theorem internal_caller_not_limited env jwt_verify (now1 now2 : Z) (w : World)
    (req : Request) :
  Auth.verifyInternalApiKey env req = true ->
  stats_route env jwt_verify now1 now2 w req
  = (stats now1 now2 (db w) (set_isInternalService req), w)
  /\ track_route env jwt_verify now1 w req
     = (fst (track now1 (geo w) (db w) (set_isInternalService req)),
        set_db (snd (track now1 (geo w) (db w) (set_isInternalService req))) w).
Proof.
  intros Hk.
  unfold stats_route, track_route, read_route, Auth.allowInternalService,
    RateLimit.run, RateLimit.skip.
  rewrite Hk. simpl isInternalService. cbv iota.
  rewrite set_apiHits_same, set_trackHits_same.
  split; [done|]. by destruct (track _ _ _ _).
Qed.

Lemma internal_caller_not_limited_witness :
  fst (stats_route Sample.env Sample.jwt_verify Sample.now Sample.now
         {| db := Sample.stats123; geo := Sample.ready;
            apiHits := {[Some "10.0.0.7" := 500%nat]}; trackHits := ∅ |}
         (Sample.request [("x-internal-api-key", Sample.internal_key)]
            (Some "10.0.0.7") "stats123" [] []))
  = reply 200 (Stats "stats123" 3 2 3 (Some Sample.now)).
Proof.
  rewrite (proj1 (internal_caller_not_limited Sample.env Sample.jwt_verify
                    Sample.now Sample.now
                    {| db := Sample.stats123; geo := Sample.ready;
                       apiHits := {[Some "10.0.0.7" := 500%nat]}; trackHits := ∅ |}
                    (Sample.request [("x-internal-api-key", Sample.internal_key)]
                       (Some "10.0.0.7") "stats123" [] [])
                    eq_refl)).
  by vm_compute.
Defined.

(** ** The collection: sorting and grouping *)

Section SortBy.
Context {A : Type} (le : A -> A -> bool).
Hypothesis le_total : forall x y, le x y = false -> le y x = true.
Hypothesis le_trans : forall x y z, le x y = true -> le y z = true -> le x z = true.

Lemma insert_by_Permutation x l : insert_by le x l ≡ₚ x :: l.
Proof.
  induction l as [|y l IH]; simpl; [done|].
  destruct (le x y); [done|]. rewrite IH. apply Permutation_swap.
Qed.

Lemma sort_by_Permutation l : sort_by le l ≡ₚ l.
Proof.
  induction l as [|x l IH]; simpl; [done|].
  by rewrite insert_by_Permutation, IH.
Qed.

Lemma insert_by_sorted x l :
  StronglySorted (fun a b => le a b = true) l ->
  StronglySorted (fun a b => le a b = true) (insert_by le x l).
Proof.
  induction l as [|y l IH]; intros Hs; simpl.
  - repeat constructor.
  - apply StronglySorted_inv in Hs as [Hs Hy].
    destruct (le x y) eqn:Hxy.
    + constructor; [by constructor|].
      constructor; [done|]. eapply List.Forall_impl; [|exact Hy]. simpl. eauto.
    + constructor; [by apply IH|].
      rewrite insert_by_Permutation. constructor; [by apply le_total|done].
Qed.

Lemma sort_by_sorted l : StronglySorted (fun a b => le a b = true) (sort_by le l).
Proof.
  induction l as [|x l IH]; simpl; [constructor|]. by apply insert_by_sorted.
Qed.
End SortBy.

Lemma sort_by_sorted_rel {A} (le : A -> A -> bool) (R : A -> A -> Prop) l :
  (forall x y, le x y = true <-> R x y) ->
  (forall x y, R x y \/ R y x) ->
  (forall x y z, R x y -> R y z -> R x z) ->
  StronglySorted R (sort_by le l).
Proof.
  intros Hle Htot Htrans.
  assert (H : StronglySorted (fun a b => le a b = true) (sort_by le l)).
  { apply sort_by_sorted.
    - intros x y Hxy. apply Hle. destruct (Htot x y) as [H%Hle|H]; [congruence|done].
    - intros x y z Hxy%Hle Hyz%Hle. apply Hle. eauto. }
  induction H as [|x k Hs IH Hx]; constructor; [done|].
  eapply List.Forall_impl; [|exact Hx]. intros a Ha. by apply Hle.
Qed.

Lemma StronglySorted_sublist {A} (R : A -> A -> Prop) l1 l2 :
  l1 `sublist_of` l2 -> StronglySorted R l2 -> StronglySorted R l1.
Proof.
  induction 1 as [|x l1 l2 Hsub IH|x l1 l2 Hsub IH]; intros Hs.
  - constructor.
  - apply StronglySorted_inv in Hs as [Hs Hx]. constructor; [by apply IH|].
    apply Forall_forall. intros y Hy. rewrite Forall_forall in Hx.
    apply Hx. by eapply elem_of_sublist.
  - apply StronglySorted_inv in Hs as [Hs _]. by apply IH.
Qed.

Lemma StronglySorted_fmap_2 {A B} (f : A -> B) (R : B -> B -> Prop) l :
  StronglySorted (fun a b => R (f a) (f b)) l -> StronglySorted R (f <$> l).
Proof.
  induction 1 as [|x l Hs IH Hx]; simpl; constructor; [done|].
  by apply Forall_fmap.
Qed.

Lemma newest_first_sorted l :
  StronglySorted (fun a b => timestamp b <= timestamp a) (newest_first l).
Proof.
  unfold newest_first.
  eapply StronglySorted_sublist with (l2 := sort_by _ l); [done|].
  assert (H := sort_by_sorted (fun a b : Click => Z.leb (timestamp b) (timestamp a))).
  induction (H ltac:(intros x y Hxy; apply Z.leb_le; apply Z.leb_gt in Hxy; lia)
               ltac:(intros x y z Hxy%Z.leb_le Hyz%Z.leb_le; apply Z.leb_le; lia) l)
    as [|x k Hs IH Hx]; constructor; [done|].
  eapply List.Forall_impl; [|exact Hx]. intros a Ha. by apply Z.leb_le.
Qed.

Lemma newest_first_Permutation l : newest_first l ≡ₚ l.
Proof. apply sort_by_Permutation. Qed.

Lemma limit_sublist n l l' : Store.limit n l = Some l' -> l' `sublist_of` l.
Proof.
  unfold Store.limit. destruct n as [|z]; [done|].
  destruct (Z.eqb z 0); intros [= <-]; [done|apply sublist_take].
Qed.

Lemma skip_sublist n l l' : Store.skip n l = Some l' -> l' `sublist_of` l.
Proof.
  unfold Store.skip. destruct n as [|z]; [done|].
  destruct (Z.leb 0 z); intros [= <-]. apply sublist_drop.
Qed.

(** What a successful history answer is made of. *)
Lemma history_200 d req code total lim off clicks :
  history d req = reply 200 (History code total lim off clicks) ->
  code = params_shortCode req
  /\ total = length (filter (fun c => by_code code c = true) (docs d))
  /\ lim = cappedLimit req
  /\ off = parseInt (query_or req "offset" 0)
  /\ exists l1 l2,
       Store.skip off (newest_first (filter (fun c => by_code code c = true) (docs d)))
       = Some l1
       /\ Store.limit lim l1 = Some l2
       /\ clicks = select_history <$> l2.
Proof.
  unfold history, find_page, countDocuments, guard.
  destruct (online d); [|done].
  destruct (Store.skip _ _) as [l1|] eqn:Hs; [|done].
  destruct (Store.limit _ _) as [l2|] eqn:Hl; [|done].
  intros [= <- <- <- <- <-]. repeat split; eauto.
Qed.

(** X11. A history page is newest first, and it shows clicks of the asked
    short code only: every item is the projection of a stored record of
    that code, and [total] counts all its records whatever the page. *)
Theorem history_page_newest_first (d : Db) (req : Request) code total lim off clicks :
  history d req = reply 200 (History code total lim off clicks) ->
  StronglySorted (fun a b => h_timestamp b <= h_timestamp a) clicks
  /\ (forall item, item ∈ clicks ->
        exists c, c ∈ docs d /\ shortCode c = code /\ item = select_history c)
  /\ total = length (filter (fun c => shortCode c = code) (docs d)).
Proof.
  intros (-> & -> & _ & _ & l1 & l2 & Hs & Hl & ->)%history_200.
  apply skip_sublist in Hs. apply limit_sublist in Hl.
  assert (Hsub : l2 `sublist_of` newest_first
            (filter (fun c => by_code (params_shortCode req) c = true) (docs d)))
    by (by etrans).
  split; [|split].
  - apply StronglySorted_fmap_2. simpl.
    eapply StronglySorted_sublist; [exact Hsub|]. apply newest_first_sorted.
  - intros item (c & -> & Hc)%list_elem_of_fmap. exists c.
    eapply elem_of_sublist in Hc; [|exact Hsub].
    rewrite newest_first_Permutation in Hc. apply list_elem_of_filter in Hc as [Hb Hc].
    unfold by_code in Hb. by destruct (decide (shortCode c = params_shortCode req)).
  - f_equal. apply list_filter_iff. intros c. unfold by_code.
    by destruct (decide (shortCode c = params_shortCode req)).
Qed.

Lemma history_page_newest_first_witness :
  StronglySorted (fun a b => h_timestamp b <= h_timestamp a)
    [select_history (Sample.click 0 "stats123" Sample.now None None None None);
     select_history (Sample.click 1 "stats123" (Sample.now - 12 * Sample.hour)
                       None None None None)].
Proof.
  apply (history_page_newest_first Sample.stats123
           (Sample.user_request "stats123" [("limit", "2")])
           "stats123" 3%nat (JInt 2) (JInt 0)).
  by vm_compute.
Defined.

(** X12. Pagination: with a limit of at least 1 and an offset of at least 0
    the page holds [min(limit, total - offset)] records, none once the
    offset reaches the total. *)
Theorem history_page_length (d : Db) (req : Request) code total n off clicks :
  history d req = reply 200 (History code total (JInt n) (JInt off) clicks) ->
  1 <= n -> 0 <= off ->
  length clicks = Nat.min (Z.to_nat n) (total - Z.to_nat off).
Proof.
  intros (-> & -> & _ & _ & l1 & l2 & Hs & Hl & ->)%history_200 Hn Hoff.
  unfold Store.skip in Hs. unfold Store.limit in Hl.
  destruct (Z.leb_spec 0 off) as [_|]; [|done]. injection Hs as <-.
  destruct (Z.eqb_spec n 0) as [|_]; [lia|]. injection Hl as <-.
  rewrite length_fmap, length_take, length_drop, (Permutation_length (newest_first_Permutation _)).
  f_equal. lia.
Qed.

Lemma history_page_length_witness :
  length (select_history <$> drop 10 (newest_first (docs Sample.history123))) = 5%nat.
Proof.
  change 5%nat with (Nat.min (Z.to_nat 10) (15 - Z.to_nat 10)).
  apply (history_page_length Sample.history123
           (Sample.user_request "history123" [("limit", "10"); ("offset", "10")])
           "history123" 15%nat 10 10); [by vm_compute|lia|lia].
Defined.

(** What a successful stats answer is made of. *)
Lemma stats_200 now1 now2 d req code total l24 l7 last :
  stats now1 now2 d req = reply 200 (Stats code total l24 l7 last) ->
  code = params_shortCode req
  /\ total = length (filter (fun c => by_code code c = true) (docs d))
  /\ last = timestamp <$> head (newest_first (filter (fun c => by_code code c = true) (docs d))).
Proof.
  unfold stats, countDocuments, findOne_newest, guard.
  destruct (online d); [|done]. by intros [= <- <- _ _ <-].
Qed.

(** X13. [lastClickAt] is the latest click: it is null exactly when the
    short code has no click, and otherwise it is the timestamp of one of
    its clicks and no click of the code is later. *)
Theorem stats_lastClickAt_latest (now1 now2 : Z) (d : Db) (req : Request)
    code total l24 l7 last :
  stats now1 now2 d req = reply 200 (Stats code total l24 l7 last) ->
  (last = None <-> total = 0%nat)
  /\ (forall t, last = Some t ->
        (exists c, c ∈ docs d /\ shortCode c = code /\ timestamp c = t)
        /\ (forall c, c ∈ docs d -> shortCode c = code -> timestamp c <= t)).
Proof.
  intros (-> & -> & ->)%stats_200.
  set (l := filter (fun c => by_code (params_shortCode req) c = true) (docs d)).
  assert (Hin : forall c, c ∈ l <-> c ∈ docs d /\ shortCode c = params_shortCode req).
  { intros c. unfold l. rewrite list_elem_of_filter. unfold by_code.
    destruct (decide (shortCode c = params_shortCode req)); split; intros [? ?]; done. }
  pose proof (newest_first_sorted l) as Hs.
  pose proof (newest_first_Permutation l) as Hp.
  destruct (newest_first l) as [|x k] eqn:E; simpl.
  - apply Permutation_nil_l in Hp. rewrite <- Hp. split; [done|]. done.
  - split.
    + split; [done|]. intros Hl. apply Permutation_length in Hp. simpl in Hp. lia.
    + intros t [= <-]. apply StronglySorted_inv in Hs as [_ Hx]. split.
      * exists x. assert (x ∈ l) as Hx' by (rewrite <- Hp; left).
        apply Hin in Hx' as [? ?]. done.
      * intros c Hc Hcode. assert (c ∈ l) as Hc' by (apply Hin; done).
        rewrite <- Hp in Hc'. apply elem_of_cons in Hc' as [->|Hc']; [lia|].
        rewrite Forall_forall in Hx. by apply Hx.
Qed.

Lemma stats_lastClickAt_latest_witness :
  exists c, c ∈ docs Sample.stats123 /\ shortCode c = "stats123"
            /\ timestamp c = Sample.now.
Proof.
  apply (stats_lastClickAt_latest (Sample.now + 5) (Sample.now + 6) Sample.stats123
           (Sample.user_request "stats123" [])
           "stats123" 3%nat 2%nat 3%nat (Some Sample.now));
    reflexivity.
Defined.

Section GroupCount.
Context {K : Type} `{EqDecision K}.
Implicit Types (k : K) (acc : list (K * nat)) (ks : list K).

Lemma recorded_cons k k0 n acc :
  Spec.recorded k ((k0, n) :: acc) = ((if decide (k0 = k) then n else 0) + Spec.recorded k acc)%nat.
Proof.
  unfold Spec.recorded. rewrite filter_cons. simpl.
  by destruct (decide (k0 = k)).
Qed.

Lemma bump_recorded k k' acc :
  Spec.recorded k (bump k' acc) = (Spec.recorded k acc + if decide (k = k') then 1 else 0)%nat.
Proof.
  induction acc as [|[k0 n] acc IH]; simpl.
  - rewrite recorded_cons. unfold Spec.recorded. simpl.
    destruct (decide (k' = k)) as [->|];
      [rewrite decide_True by done|rewrite decide_False by done]; simpl; lia.
  - destruct (decide (k' = k0)) as [->|Hne].
    + rewrite !recorded_cons. destruct (decide (k0 = k)) as [->|].
      * rewrite decide_True by done. lia.
      * rewrite decide_False by done. lia.
    + rewrite !recorded_cons, IH. lia.
Qed.

Lemma bump_keys k acc :
  fst <$> bump k acc
  = if decide (k ∈ fst <$> acc) then fst <$> acc else ((fst <$> acc) ++ [k])%list.
Proof.
  induction acc as [|[k0 n] acc IH]; [done|].
  cbn [bump]. destruct (decide (k = k0)) as [->|Hne]; rewrite !fmap_cons; cbn [fst].
  - rewrite decide_True by left. done.
  - rewrite IH. destruct (decide (k ∈ fst <$> acc)) as [Hin|Hin].
    + rewrite decide_True by (by right). done.
    + rewrite decide_False; [done|]. intros [?|?]%elem_of_cons; done.
Qed.

Lemma bump_NoDup k acc : NoDup (fst <$> acc) -> NoDup (fst <$> bump k acc).
Proof.
  intros H. rewrite bump_keys. destruct (decide _); [done|].
  apply NoDup_app. split; [done|]. split; [|apply NoDup_singleton].
  intros x Hx ->%list_elem_of_singleton. done.
Qed.

Lemma bump_positive k acc :
  Forall (fun p => (1 <= snd p)%nat) acc -> Forall (fun p => (1 <= snd p)%nat) (bump k acc).
Proof.
  induction 1 as [|[k0 n] acc Hn Hacc IH]; simpl; [repeat constructor|].
  destruct (decide (k = k0)); constructor; simpl in *; auto with lia.
Qed.

Lemma fold_bump_invariant ks acc :
  let out := fold_left (fun a k => bump k a) ks acc in
  (NoDup (fst <$> acc) -> NoDup (fst <$> out))
  /\ (Forall (fun p => (1 <= snd p)%nat) acc -> Forall (fun p => (1 <= snd p)%nat) out)
  /\ (forall k, Spec.recorded k out
                = (Spec.recorded k acc + length (filter (fun k' => k' = k) ks))%nat)
  /\ (forall k, k ∈ fst <$> out <-> k ∈ fst <$> acc \/ k ∈ ks).
Proof.
  revert acc. induction ks as [|k0 ks IH]; intros acc; simpl.
  - repeat split; auto with lia. intros [?|?%elem_of_nil]; done.
  - destruct (IH (bump k0 acc)) as (H1 & H2 & H3 & H4). repeat split.
    + intros H. by apply H1, bump_NoDup.
    + intros H. by apply H2, bump_positive.
    + intros k. rewrite H3, bump_recorded, filter_cons.
      destruct (decide (k = k0)) as [->|];
        [rewrite decide_True by done|rewrite decide_False by done]; simpl; lia.
    + rewrite H4, bump_keys, elem_of_cons. destruct (decide (k0 ∈ fst <$> acc));
        rewrite ?elem_of_app, ?list_elem_of_singleton; intuition (subst; auto).
    + rewrite H4, bump_keys, elem_of_cons. destruct (decide (k0 ∈ fst <$> acc));
        rewrite ?elem_of_app, ?list_elem_of_singleton; intuition (subst; auto).
Qed.

Lemma recorded_entry k n acc :
  NoDup (fst <$> acc) -> (k, n) ∈ acc -> Spec.recorded k acc = n.
Proof.
  induction acc as [|[k0 n0] acc IH]; simpl; [by intros _ ?%elem_of_nil|].
  intros [Hk0 Hnd]%NoDup_cons [[= -> ->]|Hin]%elem_of_cons; rewrite recorded_cons.
  - rewrite decide_True by done.
    assert (Spec.recorded k0 acc = 0%nat) as ->; [|lia].
    unfold Spec.recorded.
    assert (filter (fun p : K * nat => p.1 = k0) acc = []) as ->; [|done].
    clear IH Hnd. induction acc as [|[k' n'] acc IH]; [done|].
    rewrite filter_cons. simpl in *. rewrite decide_False.
    + apply IH. intros ?. apply Hk0. by right.
    + intros ->. apply Hk0. left.
  - rewrite decide_False; [by rewrite IH|].
    intros ->. apply Hk0. apply list_elem_of_fmap. by exists (k, n).
Qed.

(** [group_count]: one entry per distinct key, with its number of
    occurrences. *)
Lemma group_count_spec ks :
  NoDup (fst <$> group_count ks)
  /\ (forall k n, (k, n) ∈ group_count ks ->
        k ∈ ks /\ (1 <= n)%nat /\ n = length (filter (fun k' => k' = k) ks))
  /\ (forall k, k ∈ ks -> k ∈ fst <$> group_count ks).
Proof.
  unfold group_count.
  destruct (fold_bump_invariant ks []) as (H1 & H2 & H3 & H4). simpl in *.
  assert (Hnd : NoDup (fst <$> fold_left (fun a k => bump k a) ks [])).
  { apply H1. constructor. }
  split; [done|]. split.
  - intros k n Hin. split; [|split].
    + assert (k ∈ fst <$> fold_left (fun a k => bump k a) ks []) as Hk.
      { apply list_elem_of_fmap. by exists (k, n). }
      apply H4 in Hk as [Hk%elem_of_nil|Hk]; done.
    + specialize (H2 (List.Forall_nil _)). rewrite Forall_forall in H2.
      by apply (H2 (k, n)).
    + rewrite <- (recorded_entry k n _ Hnd Hin), H3. unfold Spec.recorded. simpl. lia.
  - intros k Hk. apply H4. by right.
Qed.

Lemma bump_sum k acc : sum_list (snd <$> bump k acc) = S (sum_list (snd <$> acc)).
Proof.
  induction acc as [|[k0 n] acc IH]; [done|].
  cbn [bump]. destruct (decide (k = k0)); rewrite !fmap_cons; cbn [snd].
  - simpl. lia.
  - change (sum_list (n :: (bump k acc).*2)) with (n + sum_list (bump k acc).*2)%nat.
    rewrite IH. simpl. lia.
Qed.

Lemma group_count_sum ks : sum_list (snd <$> group_count ks) = length ks.
Proof.
  unfold group_count.
  assert (H : forall acc, sum_list (snd <$> fold_left (fun a k => bump k a) ks acc)
                          = (sum_list (snd <$> acc) + length ks)%nat).
  { induction ks as [|k ks IH]; intros acc; cbn [fold_left length]; [lia|].
    rewrite IH, bump_sum. lia. }
  by rewrite H.
Qed.
End GroupCount.

Lemma sum_list_take_le n (l : list nat) : (sum_list (take n l) <= sum_list l)%nat.
Proof.
  rewrite <- (take_drop n l) at 2. rewrite sum_list_with_app. lia.
Qed.

Lemma length_filter_fmap {A B} (f : A -> B) (P : B -> Prop) `{forall x, Decision (P x)}
    (l : list A) :
  length (filter P (f <$> l)) = length (filter (fun x => P (f x)) l).
Proof.
  induction l as [|x l IH]; [done|].
  rewrite fmap_cons, !filter_cons. destruct (decide (P (f x))); simpl; by rewrite IH.
Qed.

Lemma by_code_true code c : by_code code c = true <-> shortCode c = code.
Proof. unfold by_code. by destruct (decide (shortCode c = code)). Qed.

Lemma has_true o : has o = true <-> is_Some o.
Proof. destruct o; simpl; split; eauto; try done. Qed.

(** The groups of a top-N pipeline. *)
Lemma aggregate_top_spec d code fld key top out :
  aggregate_top d code fld key top = Some out ->
  let matched := filter (fun c => (by_code code c && has (fld c))%bool = true) (docs d) in
  (length out <= top)%nat
  /\ (sum_list (snd <$> out) <= length matched)%nat
  /\ StronglySorted (fun a b => (snd b <= snd a)%nat) out
  /\ (forall k n, (k, n) ∈ out ->
        (1 <= n)%nat
        /\ (exists c, c ∈ matched /\ key c = k)
        /\ n = length (filter (fun c => key c = k) matched)).
Proof.
  unfold aggregate_top, guard. destruct (online d); [|done]. intros [= <-]. simpl.
  set (matched := filter _ (docs d)).
  set (le := fun a b : option string * option string * nat => Nat.leb (snd b) (snd a)).
  assert (Hperm : sort_by le (group_count (key <$> matched)) ≡ₚ group_count (key <$> matched))
    by apply sort_by_Permutation.
  assert (Hsub : take top (sort_by le (group_count (key <$> matched)))
                 `sublist_of` sort_by le (group_count (key <$> matched)))
    by apply sublist_take.
  split; [rewrite length_take; lia|]. split; [|split].
  - etrans; [rewrite fmap_take; apply sum_list_take_le|].
    rewrite Hperm, group_count_sum, length_fmap. done.
  - eapply StronglySorted_sublist; [exact Hsub|].
    apply sort_by_sorted_rel.
    + intros x y. unfold le. apply Nat.leb_le.
    + intros x y. simpl. lia.
    + intros x y z. simpl. lia.
  - intros k n Hin. eapply elem_of_sublist in Hin; [|exact Hsub].
    rewrite Hperm in Hin.
    destruct (group_count_spec (key <$> matched)) as (_ & Hspec & _).
    destruct (Hspec k n Hin) as (Hk & Hn & ->). split; [done|]. split.
    + apply list_elem_of_fmap in Hk as (c & -> & Hc). eauto.
    + by rewrite length_filter_fmap.
Qed.

(** X14. The geographic breakdown is consistent with the totals: the
    records with a location are at most all records, there are at most 20
    countries and 10 cities, most frequent first, the country counts add up
    to at most [totalWithLocation] and the city counts to at most
    [totalClicks], and every country listed is a real one whose count is
    the number of the short code's records from it. *)
Theorem geo_breakdown_consistent (d : Db) (req : Request)
    code totalClicks totalWithLocation countries cities :
  geo_stats d req = reply 200 (Geo code totalClicks totalWithLocation countries cities) ->
  (totalWithLocation <= totalClicks)%nat
  /\ (length countries <= 20)%nat /\ (length cities <= 10)%nat
  /\ (sum_list (snd <$> countries) <= totalWithLocation)%nat
  /\ (sum_list (snd <$> cities) <= totalClicks)%nat
  /\ StronglySorted (fun a b => (snd b <= snd a)%nat) countries
  /\ StronglySorted (fun a b => (snd b <= snd a)%nat) cities
  /\ (forall ctry cc n, (ctry, cc, n) ∈ countries ->
        is_Some ctry /\ (1 <= n)%nat
        /\ n = length (filter (fun c => shortCode c = code /\ country c = ctry
                                        /\ countryCode c = cc) (docs d))).
Proof.
  unfold geo_stats, countDocuments.
  destruct (aggregate_top _ _ country _ _) as [cs|] eqn:Hcs; [|done].
  destruct (aggregate_top _ _ city _ _) as [ct|] eqn:Hct; [|done].
  unfold guard. destruct (online d); [|done]. intros [= <- <- <- <- <-].
  apply aggregate_top_spec in Hcs as (Hc1 & Hc2 & Hc3 & Hc4).
  apply aggregate_top_spec in Hct as (Ht1 & Ht2 & Ht3 & _).
  split; [apply filter_length_le; by intros c [? _]%andb_prop|].
  split; [done|]. split; [done|]. split; [done|]. split.
  { etrans; [exact Ht2|]. apply filter_length_le. by intros c [? _]%andb_prop. }
  split; [done|]. split; [done|].
  intros ctry cc n Hin. destruct (Hc4 _ _ Hin) as (Hn & (c & Hc & Hkey) & ->).
  injection Hkey as Hk1 Hk2.
  apply list_elem_of_filter in Hc as [[_ Hh%has_true]%andb_prop _].
  split; [by rewrite <- Hk1|]. split; [done|].
  rewrite list_filter_filter. f_equal. apply list_filter_iff. intros c'.
  rewrite andb_true_iff, by_code_true, has_true. split.
  - intros [[= H1 H2] [? ?]]. done.
  - intros (? & H1 & H2). split; [by rewrite H1, H2|]. split; [done|].
    by rewrite H1, <- Hk1.
Qed.

Lemma geo_breakdown_consistent_witness :
  (3 <= 4)%nat /\ (sum_list (snd <$> [(Some "United States", Some "US", 2%nat);
                                      (Some "Germany", Some "DE", 1%nat)]) <= 3)%nat.
Proof.
  pose proof (geo_breakdown_consistent Sample.geo123 (Sample.user_request "geo123" [])
                "geo123" 4%nat 3%nat
                [(Some "United States", Some "US", 2%nat); (Some "Germany", Some "DE", 1%nat)]
                [(Some "New York", Some "United States", 1%nat);
                 (Some "Los Angeles", Some "United States", 1%nat);
                 (Some "Berlin", Some "Germany", 1%nat)]
                eq_refl) as (H1 & _ & _ & H4 & _).
  split; [exact H1|exact H4].
Defined.

Lemma length_filter_impl {A} (P Q : A -> Prop) `{forall x, Decision (P x)}
    `{forall x, Decision (Q x)} (l : list A) :
  (forall x, P x -> Q x) -> (length (filter P l) <= length (filter Q l))%nat.
Proof.
  intros HPQ. induction l as [|x l IH]; [done|].
  rewrite !filter_cons. destruct (decide (P x)) as [HP|HP].
  - rewrite decide_True by auto. simpl. lia.
  - destruct (decide (Q x)); simpl; lia.
Qed.

Lemma StronglySorted_strict {A} (f : A -> Z) (l : list A) :
  StronglySorted (fun a b => f a <= f b) l -> NoDup (f <$> l) ->
  StronglySorted (fun a b => f a < f b) l.
Proof.
  induction 1 as [|x l Hs IH Hx]; [constructor|].
  rewrite fmap_cons. intros [Hnin Hnd]%NoDup_cons. constructor; [by apply IH|].
  apply Forall_forall. intros y Hy. rewrite Forall_forall in Hx.
  specialize (Hx y Hy). simpl in Hx.
  assert (f x <> f y); [|lia].
  intros E. apply Hnin. rewrite E. by apply list_elem_of_fmap_2.
Qed.

Lemma by_code_since_true code since c :
  by_code_since code since c = true <-> shortCode c = code /\ since <= timestamp c.
Proof. unfold by_code_since. by rewrite andb_true_iff, by_code_true, Z.leb_le. Qed.

(** X15. The daily series is sparse and ascending: its days are strictly
    increasing, every day listed has at least one click and its count is the
    number of the short code's clicks of that day since the start date, no
    day with such a click is missing, and the counts add up to the clicks
    since the start date, at most all clicks of the short code.  The start
    date is the clock minus the capped days when that is a date, and the
    epoch when it is not (no number of days, or one so far below zero that
    the date leaves the range of dates). *)
Theorem daily_series_sparse_ascending (now : Z) (d : Db) (req : Request) code days data :
  Spec.clock now ->
  daily now d req = reply 200 (Daily code days data) ->
  StronglySorted (fun a b => fst a < fst b) data
  /\ (forall day n, (day, n) ∈ data ->
        (1 <= n)%nat
        /\ n = length (filter (fun c => day_of (timestamp c) = day
                                        /\ shortCode c = code
                                        /\ startDate now req <= timestamp c) (docs d)))
  /\ (forall c, c ∈ docs d -> shortCode c = code -> startDate now req <= timestamp c ->
        day_of (timestamp c) ∈ fst <$> data)
  /\ sum_list (snd <$> data)
     = length (filter (fun c => shortCode c = code /\ startDate now req <= timestamp c)
                 (docs d))
  /\ (sum_list (snd <$> data) <= length (filter (fun c => shortCode c = code) (docs d)))%nat.
Proof.
  intros _.
  unfold daily, aggregate_daily, guard. destruct (online d); [|done].
  intros [= <- <- <-].
  set (code := params_shortCode req). set (since := startDate now req).
  set (window := filter (fun c => by_code_since code since c = true) (docs d)).
  set (keys := day_of ∘ timestamp <$> window).
  set (le := fun a b : Z * nat => Z.leb (fst a) (fst b)).
  assert (Hw : window = filter (fun c => shortCode c = code /\ since <= timestamp c) (docs d)).
  { apply list_filter_iff. intros c. apply by_code_since_true. }
  pose proof (sort_by_Permutation le (group_count keys)) as Hperm.
  destruct (group_count_spec keys) as (Hnd & Hspec & Hall).
  assert (Hsum : sum_list (snd <$> sort_by le (group_count keys)) = length window).
  { rewrite Hperm, group_count_sum. unfold keys. by rewrite length_fmap. }
  split; [|split; [|split; [|split]]].
  - apply (StronglySorted_strict fst).
    + apply sort_by_sorted_rel.
      * intros x y. unfold le. apply Z.leb_le.
      * intros x y. lia.
      * intros x y z. lia.
    + by rewrite Hperm.
  - intros day n Hin. rewrite Hperm in Hin.
    destruct (Hspec day n Hin) as (_ & Hn & ->). split; [done|].
    unfold keys. rewrite length_filter_fmap, Hw, list_filter_filter. done.
  - intros c Hc Hcode Hsince. rewrite Hperm. apply Hall. unfold keys.
    apply (list_elem_of_fmap_2 (day_of ∘ timestamp)). rewrite Hw.
    apply list_elem_of_filter. done.
  - by rewrite Hsum, Hw.
  - rewrite Hsum, Hw. apply length_filter_impl. by intros c [? _].
Qed.

Lemma daily_series_sparse_ascending_witness :
  StronglySorted (fun a b : Z * nat => fst a < fst b) [(19672, 1%nat); (19675, 2%nat)].
Proof.
  apply (daily_series_sparse_ascending (Sample.now + 5) Sample.stats123
           (Sample.user_request "stats123" [("days", "7")])
           "stats123" (JInt 7) [(19672, 1%nat); (19675, 2%nat)]).
  - unfold Spec.clock, Sample.now. lia.
  - by vm_compute.
Defined.

(** ** Ingestion and the totals *)

(** What the handler does to the store: a 201 appends one record built from
    the request; every other answer leaves the store as it was. *)
Lemma track_outcome now g d req :
  (exists c, track now g d req
             = (reply 201 (Tracked "Click tracked successfully" (_id c)),
                {| docs := docs d ++ [c]; next_id := S (next_id d); online := true |})
     /\ online d = true
     /\ _id c = next_id d /\ timestamp c = now
     /\ body req !! "short_code" = Some (shortCode c) /\ shortCode c <> EmptyString
     /\ body req !! "original_url" = Some (originalUrl c) /\ originalUrl c <> EmptyString)
  \/ (snd (track now g d req) = d
      /\ (status (fst (track now g d req)) = 400 \/ status (fst (track now g d req)) = 500)).
Proof.
  unfold track, save, guard.
  destruct (body req !! "short_code") as [sc|] eqn:Hsc; [|right; simpl; auto].
  destruct (body req !! "original_url") as [url|] eqn:Hurl.
  2: { right. destruct (falsy (Some sc)); simpl; auto. }
  destruct (decide (sc = EmptyString)) as [->|Hne1]; [right; simpl; auto|].
  destruct (decide (url = EmptyString)) as [->|Hne2].
  { right. destruct (falsy (Some sc)); simpl; auto. }
  assert (falsy (Some sc) = false) as -> by (unfold falsy; by rewrite decide_False).
  assert (falsy (Some url) = false) as -> by (unfold falsy; by rewrite decide_False).
  simpl orb. cbv iota.
  destruct (Geolocation.lookupIP g (track_ipAddress req)) as [gd|]; [|right; simpl; auto].
  destruct (online d) eqn:Hon; [|right; simpl; auto].
  left. eexists. split; [reflexivity|]. simpl. done.
Qed.

(** What the track route passes to the handler. *)
Lemma track_route_cases env jwt_verify now w req :
  (exists req' hits, body req' = body req
     /\ track_route env jwt_verify now w req
        = (fst (track now (geo w) (db w) req'),
           set_db (snd (track now (geo w) (db w) req')) (set_trackHits hits w)))
  \/ (Spec.refused (fst (track_route env jwt_verify now w req))
      /\ db (snd (track_route env jwt_verify now w req)) = db w).
Proof.
  unfold track_route, Auth.allowInternalService, Auth.requireAuth, RateLimit.run,
    RateLimit.skip, Spec.refused.
  destruct (Auth.verifyInternalApiKey env req).
  { left. exists (set_isInternalService req), (trackHits w). simpl.
    split; [done|]. by destruct (track _ _ _ _). }
  destruct (headers req !! "authorization") as [h|]; [|right; simpl; eauto 7].
  destruct (falsy (Some h) || negb (startsWith "Bearer " h))%bool; [right; simpl; eauto 7|].
  destruct (falsy (Some (Config.jwtSecret (Config.config env)))); [right; simpl; eauto 7|].
  destruct (jwt_verify _ _) as [uid|name].
  - destruct (isInternalService _).
    + left. eexists (set_user {| userId := uid |} req), _. split; [done|].
      destruct (track now (geo w) (db w) (set_user {| userId := uid |} req)); reflexivity.
    + destruct (Nat.ltb _ _); [right; simpl; eauto 7|].
      left. eexists (set_user {| userId := uid |} req), _. split; [done|].
      destruct (track now (geo w) (db w) (set_user {| userId := uid |} req)); reflexivity.
  - right. repeat (destruct (decide _)); simpl; eauto 7.
Qed.

(** X16. The track route writes exactly when it answers 201: a 201 appends
    one record, stamped with the clock and carrying the submitted short
    code and URL, and returns that record's id; any other answer leaves the
    collection unchanged. *)
Theorem track_writes_exactly_on_201 env jwt_verify (now : Z) (w : World) (req : Request) :
  (status (fst (track_route env jwt_verify now w req)) = 201 ->
     exists c, docs (db (snd (track_route env jwt_verify now w req)))
               = (docs (db w) ++ [c])%list
       /\ json (fst (track_route env jwt_verify now w req))
          = Tracked "Click tracked successfully" (_id c)
       /\ timestamp c = now
       /\ body req !! "short_code" = Some (shortCode c)
       /\ body req !! "original_url" = Some (originalUrl c))
  /\ (status (fst (track_route env jwt_verify now w req)) <> 201 ->
        db (snd (track_route env jwt_verify now w req)) = db w).
Proof.
  destruct (track_route_cases env jwt_verify now w req)
    as [(req' & hits & Hb & ->)|[[_ Hs] Hd]].
  - simpl. rewrite <- Hb.
    destruct (track_outcome now (geo w) (db w) req')
      as [(c & -> & _ & _ & Ht & Hsc & _ & Hurl & _)|[-> Hst]]; simpl.
    + split; [|done]. intros _. exists c. done.
    + split; [|done]. intros H. lia.
  - split; [|done]. intros H. lia.
Qed.

Lemma track_writes_exactly_on_201_witness :
  exists c, docs (db (snd (track_route Sample.env Sample.jwt_verify 1700000000000
                             (Sample.world Sample.empty_db Sample.ready) Sample.track_abc)))
            = (docs Sample.empty_db ++ [c])%list
    /\ shortCode c = "abc".
Proof.
  destruct (proj1 (track_writes_exactly_on_201 Sample.env Sample.jwt_verify 1700000000000
                     (Sample.world Sample.empty_db Sample.ready) Sample.track_abc)
              eq_refl) as (c & Hd & _ & _ & Hsc & _).
  exists c. split; [exact Hd|].
  assert (E : body Sample.track_abc !! "short_code" = Some "abc") by reflexivity.
  rewrite E in Hsc. injection Hsc as Hsc. exact (eq_sym Hsc).
Defined.

(** X17. A tracked click shows in the very next stats: after a 201 the
    total of the submitted short code is one more than before and the total
    of every other short code is as before. *)
Theorem track_then_stats (now a1 a2 b1 b2 : Z) (g : Geolocation.State) (d d' : Db)
    (req req2 : Request) res code n l24 l7 last :
  track now g d req = (res, d') -> status res = 201 ->
  stats a1 a2 d req2 = reply 200 (Stats code n l24 l7 last) ->
  exists l24' l7' last',
    stats b1 b2 d' req2
    = reply 200 (Stats code
                   (if decide (body req !! "short_code" = Some code) then S n else n)
                   l24' l7' last').
Proof.
  intros Ht Hs Hstats.
  destruct (track_outcome now g d req) as [(c & E & Hon & _ & _ & Hsc & _)|[_ Hst]].
  2: { rewrite Ht in Hst. simpl in Hst. lia. }
  rewrite Ht in E. injection E as _ ->.
  apply stats_200 in Hstats as (-> & -> & _).
  unfold stats, countDocuments, findOne_newest, guard. simpl.
  eexists _, _, _. f_equal. f_equal.
  rewrite filter_app, length_app, filter_cons, filter_nil.
  rewrite Hsc. destruct (decide (Some (shortCode c) = Some (params_shortCode req2))) as [[= E]|Hne].
  - rewrite decide_True by (by apply by_code_true). simpl. lia.
  - rewrite decide_False; [simpl; lia|]. intros E%by_code_true. congruence.
Qed.

Lemma track_then_stats_witness :
  exists l24' l7' last',
    stats (Sample.now + 5) (Sample.now + 6)
      {| docs := [Sample.click_abc]; next_id := 1; online := true |}
      (Sample.user_request "abc" [])
    = reply 200 (Stats "abc" 1 l24' l7' last').
Proof.
  apply (track_then_stats 1700000000000 Sample.now Sample.now (Sample.now + 5) (Sample.now + 6)
           Sample.ready Sample.empty_db
           {| docs := [Sample.click_abc]; next_id := 1; online := true |}
           (set_isInternalService Sample.track_abc) (Sample.user_request "abc" [])
           (reply 201 (Tracked "Click tracked successfully" 0))
           "abc" 0%nat 0%nat 0%nat None); reflexivity.
Defined.

(** ** The resolver's life cycle and results *)

(** X18. Initialisation never leaves the resolver half-way: whatever fails,
    [isInitialized] is set; a reader is available afterwards exactly when
    the import, the file check and the opening all succeeded or a reader
    was already loaded; and without a reader every lookup answers null. *)
Theorem initGeoIP_degrades (imported exists_ : bool)
    (opened : completion Geolocation.Reader) (st : Geolocation.State) :
  Geolocation.isInitialized (Geolocation.initGeoIP imported exists_ opened st) = true
  /\ (Geolocation.isGeoIPAvailable (Geolocation.initGeoIP imported exists_ opened st) = true
      <-> (imported = true /\ exists_ = true /\ exists r, opened = Normal r)
          \/ Geolocation.isGeoIPAvailable st = true)
  /\ (Geolocation.isGeoIPAvailable (Geolocation.initGeoIP imported exists_ opened st) = false ->
      forall ip, Geolocation.lookupIP (Geolocation.initGeoIP imported exists_ opened st) ip
                 = Normal None).
Proof.
  split; [by destruct imported, exists_, opened|]. split.
  - unfold Geolocation.isGeoIPAvailable, Geolocation.initGeoIP.
    destruct imported, exists_, opened as [r|e]; simpl;
      destruct (Geolocation.reader st); split; eauto;
      intros [(? & ? & ? & ?)|?]; done.
  - unfold Geolocation.isGeoIPAvailable, Geolocation.lookupIP.
    destruct (Geolocation.reader _); [done|]. done.
Qed.

Lemma initGeoIP_degrades_witness :
  Geolocation.lookupIP Sample.disabled (Some "8.8.8.8") = Normal None.
Proof.
  apply (initGeoIP_degrades true false (Throw "Error") Geolocation.initial). reflexivity.
Defined.

Lemma recognised_isPrivateIP ip :
  Spec.recognised ip -> Geolocation.isPrivateIP (Some ip) = true.
Proof.
  intros [a b c d H| | |rest].
  - by apply private_v4_isPrivateIP.
  - reflexivity.
  - reflexivity.
  - by apply (isPrivateIP_intro {| pat := lit "fe80:"; dollar := false; ignoreCase := true |});
      [simpl; tauto|..].
Qed.

(** X26. [lookupIP] completes normally on every input (it never raises to
    its caller), and its result is [null] when the address is [null] or
    empty, when its text is one that [isPrivateIP] is written for
    (dotted-decimal IPv4 of 10/8, 172.16/12, 192.168/16 and 127/8,
    [localhost], [::1], text starting with [fe80:]), when the resolver is
    disabled (no reader), and when the reader throws, as it does for an
    address that is not in the database. *)
Theorem lookupIP_null_cases (st : Geolocation.State) :
  (forall ip, exists v, Geolocation.lookupIP st ip = Normal v)
  /\ (forall ip, falsy ip = true -> Geolocation.lookupIP st ip = Normal None)
  /\ (forall ip, Spec.recognised ip ->
        Geolocation.lookupIP st (Some ip) = Normal None)
  /\ (forall ip, Geolocation.reader st = None -> Geolocation.lookupIP st ip = Normal None)
  /\ (forall rd ip name, Geolocation.reader st = Some rd -> rd ip = Throw name ->
        Geolocation.lookupIP st (Some ip) = Normal None).
Proof.
  unfold Geolocation.lookupIP. repeat split.
  - intros [ip|]; destruct (Geolocation.reader st) as [rd|]; eauto.
    destruct (falsy (Some ip)); eauto.
    destruct (Geolocation.isPrivateIP (Some ip)); eauto.
    destruct (rd ip); simpl; eauto.
  - intros [ip|] H; destruct (Geolocation.reader st); try done. by rewrite H.
  - intros ip H%recognised_isPrivateIP.
    destruct (Geolocation.reader st); [|done].
    destruct (falsy (Some ip)); [done|]. by rewrite H.
  - intros ip ->. done.
  - intros rd ip name -> Hrd.
    destruct (falsy (Some ip)); [done|].
    destruct (Geolocation.isPrivateIP (Some ip)); [done|]. by rewrite Hrd.
Qed.

Lemma lookupIP_null_cases_witness :
  Geolocation.lookupIP Sample.ready (Some EmptyString) = Normal None
  /\ Geolocation.lookupIP Sample.ready_all (Some (Spec.dotted 172 16 0 1)) = Normal None
  /\ Geolocation.lookupIP Sample.disabled (Some "8.8.8.8") = Normal None
  /\ Geolocation.lookupIP Sample.ready (Some "1.2.3.4") = Normal None.
Proof.
  destruct (lookupIP_null_cases Sample.ready) as (_ & H2 & _ & _ & H5).
  destruct (lookupIP_null_cases Sample.ready_all) as (_ & _ & H3 & _ & _).
  destruct (lookupIP_null_cases Sample.disabled) as (_ & _ & _ & H4 & _).
  split; [apply H2; reflexivity|].
  split; [apply H3, Spec.known_v4; unfold Spec.private_v4; lia|].
  split; [apply H4; reflexivity|].
  apply (H5 Sample.rd "1.2.3.4" "AddressNotFoundError"); reflexivity.
Defined.



(** X20. Geolocation never fails a submission: the handler answers 400
    exactly when a required field is missing or empty, and otherwise 201
    when the store accepts the record and 500 when it does not, whatever
    the resolver does with the address. *)
Theorem track_status (now : Z) (g : Geolocation.State) (d : Db) (req : Request) :
  status (fst (track now g d req))
  = if (falsy (body req !! "short_code") || falsy (body req !! "original_url"))%bool
    then 400
    else if online d then 201 else 500.
Proof.
  unfold track, save, guard.
  destruct (falsy (body req !! "short_code") || falsy (body req !! "original_url"))%bool;
    [done|].
  destruct (Geolocation.lookupIP g (track_ipAddress req)) as [gd|name] eqn:Hl.
  - by destruct (online d).
  - exfalso. unfold Geolocation.lookupIP in Hl.
    destruct (Geolocation.reader g) as [rd|]; [|done].
    destruct (track_ipAddress req) as [a|]; [|done].
    destruct (falsy (Some a)); [done|].
    destruct (Geolocation.isPrivateIP (Some a)); [done|].
    by destruct (rd a).
Qed.



(** ** Numbers in the query string *)

Lemma digits_acc (u : Decimal.uint) (p : positive) :
  digits true (Zpos p) (NilEmpty.string_of_uint u) = Some (Zpos (Pos.of_uint_acc u p)).
Proof.
  revert p. induction u; intros p; simpl; [done|..];
    match goal with
    | |- context [Z.of_nat (nat_of_ascii ?c)] =>
        let v := eval vm_compute in (Z.of_nat (nat_of_ascii c)) in
        change (Z.of_nat (nat_of_ascii c)) with v
    end;
    match goal with
    | |- digits true ?z _ = Some (Z.pos (Pos.of_uint_acc _ ?q)) =>
        replace z with (Z.pos q) by lia
    end; apply IHu.
Qed.

Lemma digits_uint (seen : bool) (u : Decimal.uint) :
  u <> Decimal.Nil ->
  digits seen 0 (NilEmpty.string_of_uint u) = Some (Z.of_N (Pos.of_uint u)).
Proof.
  revert seen. induction u; intros seen Hu; try done; simpl;
    match goal with
    | |- context [Z.of_nat (nat_of_ascii ?c)] =>
        let v := eval vm_compute in (0 * 10 + (Z.of_nat (nat_of_ascii c) - 48)) in
        change (0 * 10 + (Z.of_nat (nat_of_ascii c) - 48)) with v
    end; try apply digits_acc.
  destruct u; try (by apply IHu). done.
Qed.

Lemma parseInt_uint (u : Decimal.uint) :
  u <> Decimal.Nil ->
  parseInt (VStr (NilEmpty.string_of_uint u)) = JInt (Z.of_N (Pos.of_uint u))
  /\ parseInt (VStr (String "-" (NilEmpty.string_of_uint u)))
     = JInt (- Z.of_N (Pos.of_uint u)).
Proof.
  intros Hu. pose proof (digits_uint false u Hu) as Hd.
  unfold parseInt, ToString. split.
  - destruct u; try done; simpl in *; rewrite Hd; f_equal; try lia.
  - simpl. rewrite Hd. f_equal; try lia.
Qed.

Lemma parseInt_ToString (z : Z) : parseInt (VStr (ToString (VNum z))) = JInt z.
Proof.
  destruct z as [|p|p]; [done| |].
  - simpl ToString. unfold NilZero.string_of_int, Z.to_int, NilZero.string_of_uint.
    pose proof (Unsigned.to_uint_nonnil p) as Hn.
    destruct (parseInt_uint (Pos.to_uint p) Hn) as [H _].
    rewrite Unsigned.of_to in H. by destruct (Pos.to_uint p).
  - simpl ToString. unfold NilZero.string_of_int, Z.to_int, NilZero.string_of_uint.
    pose proof (Unsigned.to_uint_nonnil p) as Hn.
    destruct (parseInt_uint (Pos.to_uint p) Hn) as [_ H].
    rewrite Unsigned.of_to in H. by destruct (Pos.to_uint p).
Qed.

(** X22. A number written in decimal comes back from [parseInt], so the
    caps act on the number asked for: a limit [n] given in decimal is
    echoed as [min(n, 100)] and days [n] as [min(n, 90)]; without the
    parameter the limit is 100 and the days are 30.  The number is taken
    in the range that JavaScript represents exactly. *)
Theorem caps_on_decimal_parameters (req : Request) (n : Z) :
  Z.abs n < 2 ^ 53 ->
  parseInt (VNum n) = JInt n
  /\ (query req !! "limit" = Some (ToString (VNum n)) -> cappedLimit req = JInt (Z.min n 100))
  /\ (query req !! "days" = Some (ToString (VNum n)) -> cappedDays req = JInt (Z.min n 90))
  /\ (query req !! "limit" = None -> cappedLimit req = JInt 100)
  /\ (query req !! "days" = None -> cappedDays req = JInt 30).
Proof.
  intros _. split; [apply parseInt_ToString|].
  unfold cappedLimit, cappedDays, query_or.
  repeat split; intros ->;
    change (VStr <$> Some (ToString (VNum n))) with (Some (VStr (ToString (VNum n))));
    cbn [default from_option fmap option_fmap option_map id];
    rewrite ?parseInt_ToString; done.
Qed.

Lemma caps_on_decimal_parameters_witness :
  cappedLimit (Sample.request [] None "history123" [("limit", "250")] []) = JInt 100
  /\ cappedDays (Sample.request [] None "daily123" [("days", "7")] []) = JInt 7.
Proof.
  destruct (caps_on_decimal_parameters
              (Sample.request [] None "history123" [("limit", "250")] []) 250)
    as (_ & Hl & _); [lia|].
  destruct (caps_on_decimal_parameters
              (Sample.request [] None "daily123" [("days", "7")] []) 7)
    as (_ & _ & Hd & _); [lia|].
  split; [exact (Hl eq_refl)|exact (Hd eq_refl)].
Defined.

(** ** Private ranges, exactly *)

Lemma is_void_not_nullable r : Spec.is_void r = true -> nullable r = false.
Proof.
  induction r; simpl; try done.
  - intros [H|H]%orb_prop; [rewrite IHr1 by done|rewrite IHr2 by done]; [done|].
    apply andb_false_r.
  - intros [H1 H2]%andb_prop. by rewrite IHr1, IHr2.
Qed.

Lemma is_void_deriv i c r : Spec.is_void r = true -> Spec.is_void (deriv i c r) = true.
Proof.
  induction r; simpl; try done.
  - intros Hv. destruct (nullable r1) eqn:Hn; simpl.
    + apply orb_prop in Hv as [H|H].
      * apply is_void_not_nullable in H. congruence.
      * rewrite H, orb_true_r. simpl. by apply IHr2.
    + apply orb_prop in Hv as [H|H]; [by rewrite IHr1|by rewrite H, orb_true_r].
  - intros [H1 H2]%andb_prop. by rewrite IHr1, IHr2.
Qed.

Lemma is_void_matches i d r s : Spec.is_void r = true -> matches i d r s = false.
Proof.
  revert r. induction s as [|c s IH]; intros r Hv; simpl.
  - by apply is_void_not_nullable.
  - rewrite (is_void_not_nullable r Hv). simpl. by apply IH, is_void_deriv.
Qed.

Lemma verdict_sound i d r p b rest :
  Spec.verdict i d r p = Some b -> matches i d r (p ++ rest) = b.
Proof.
  revert r. induction p as [|c p IH]; intros r.
  - rewrite append_nil. simpl. destruct (Spec.is_void r) eqn:Hv; [|done].
    intros [= <-]. by apply is_void_matches.
  - rewrite append_cons. simpl.
    destruct (nullable r && negb d)%bool; [by intros [= <-]|]. apply IH.
Qed.

Lemma all_refuse_octets :
  forallb (fun a => forallb (fun b => Spec.private_v4b a b || Spec.all_refuse a b)
                      Spec.octets) Spec.octets = true.
Proof. by vm_compute. Qed.

Lemma private_v4b_spec a b : Spec.private_v4b a b = true <-> Spec.private_v4 a b.
Proof.
  unfold Spec.private_v4b, Spec.private_v4.
  rewrite !orb_true_iff, !andb_true_iff, !N.eqb_eq, !N.leb_le. tauto.
Qed.

Lemma elem_of_octets a : (a < 256)%N -> a ∈ Spec.octets.
Proof.
  intros H. unfold Spec.octets. apply list_elem_of_fmap.
  exists (N.to_nat a). split; [lia|]. apply elem_of_seq. lia.
Qed.

(** X23. On dotted-decimal IPv4 text [isPrivateIP] is exact: an address with
    octets below 256 is treated as private if and only if it lies in 10/8,
    172.16/12, 192.168/16 or 127/8, so no public address is skipped. *)
Theorem isPrivateIP_exact_on_ipv4 (a b c d : N) :
  (a < 256)%N -> (b < 256)%N ->
  (Geolocation.isPrivateIP (Some (Spec.dotted a b c d)) = true <-> Spec.private_v4 a b).
Proof.
  intros Ha Hb. split; [|apply private_v4_isPrivateIP].
  intros Hp. apply private_v4b_spec.
  destruct (Spec.private_v4b a b) eqn:Hpb; [done|]. exfalso.
  pose proof all_refuse_octets as Hall.
  assert (Ha' : In a Spec.octets) by (by apply list_elem_of_In, elem_of_octets).
  assert (Hb' : In b Spec.octets) by (by apply list_elem_of_In, elem_of_octets).
  rewrite forallb_forall in Hall. specialize (Hall a Ha').
  rewrite forallb_forall in Hall. specialize (Hall b Hb').
  rewrite Hpb in Hall. simpl in Hall.
  unfold Spec.all_refuse in Hall. rewrite forallb_forall in Hall.
  unfold Geolocation.isPrivateIP in Hp.
  assert (Hf : falsy (Some (Spec.dotted a b c d)) = false).
  { rewrite dotted_octet. by destruct (Spec.dec a). }
  rewrite Hf in Hp. apply existsb_exists in Hp as (x & Hx & Ht).
  specialize (Hall x Hx). unfold test in Ht.
  rewrite dotted_octets in Ht.
  destruct (Spec.verdict _ _ _ _) as [[]|] eqn:Hv; try done.
  rewrite (verdict_sound _ _ _ _ _ _ Hv) in Ht. done.
Qed.

Lemma isPrivateIP_exact_on_ipv4_witness :
  Geolocation.isPrivateIP (Some (Spec.dotted 172 31 255 254)) = true.
Proof.
  apply (isPrivateIP_exact_on_ipv4 172 31 255 254); [lia|lia|].
  unfold Spec.private_v4. lia.
Defined.

(** ** The bearer token *)

Lemma split_space_free t :
  Spec.space_free t = true -> split " " t = [t].
Proof.
  induction t as [|c t IH]; simpl; [done|].
  destruct (decide (c = " "%char)); [done|]. intros H. by rewrite IH.
Qed.

Lemma split_at_space t r :
  Spec.space_free t = true -> split " " (t ++ String " " r) = t :: split " " r.
Proof.
  induction t as [|c t IH]; intros H.
  - rewrite append_nil. simpl. done.
  - rewrite append_cons. simpl in *. destruct (decide (c = " "%char)); [done|].
    by rewrite IH.
Qed.

Lemma bearer_token t rest :
  Spec.space_free t = true -> rest = EmptyString \/ (exists r, rest = String " " r) ->
  split " " ("Bearer " ++ t ++ rest) !! 1%nat = Some t.
Proof.
  intros Ht Hrest.
  change ("Bearer " ++ t ++ rest) with ("Bearer" ++ String " " (t ++ rest)).
  rewrite split_at_space by done. simpl.
  destruct Hrest as [->|[r ->]].
  - assert (t ++ EmptyString = t) as ->.
    { clear Ht. induction t as [|c t IH]; [done|]. by rewrite append_cons, IH. }
    by rewrite split_space_free.
  - by rewrite split_at_space.
Qed.

(** X24. The token that is verified is the text between [Bearer ] and the
    next space: whatever follows a second space in the header is ignored,
    and the answer is the verifier's verdict on that token alone. *)
Theorem requireAuth_verifies_first_word env jwt_verify (req : Request) (t rest : string) :
  headers req !! "authorization" = Some ("Bearer " ++ t ++ rest) ->
  Spec.space_free t = true ->
  rest = EmptyString \/ (exists r, rest = String " " r) ->
  Auth.requireAuth env jwt_verify req
  = Spec.verified (jwt_verify (Some t) (Config.jwtSecret (Config.config env))) req.
Proof.
  intros Hh Ht Hrest. unfold Auth.requireAuth. rewrite Hh.
  assert (Hb : startsWith "Bearer " ("Bearer " ++ t ++ rest) = true) by apply startsWith_app.
  rewrite Hb, (startsWith_Bearer_nonempty _ Hb), jwtSecret_configured.
  by rewrite bearer_token.
Qed.

Lemma requireAuth_verifies_first_word_witness :
  Auth.requireAuth Sample.env Sample.jwt_verify
    (Sample.request [("authorization", "Bearer good and more")] None "abc" [] [])
  = Next (set_user {| userId := Some "user123" |}
            (Sample.request [("authorization", "Bearer good and more")] None "abc" [] [])).
Proof.
  apply (requireAuth_verifies_first_word Sample.env Sample.jwt_verify
           (Sample.request [("authorization", "Bearer good and more")] None "abc" [] [])
           "good" " and more").
  - reflexivity.
  - reflexivity.
  - right. eexists. reflexivity.
Defined.

(** ** Allowed origins *)

Lemma skip_white_head s c t : skip_white s = String c t -> is_white c = false.
Proof.
  induction s as [|a s IH]; simpl; [done|].
  destruct (is_white a) eqn:E; [done|]. by intros [= <- _].
Qed.

Lemma skip_white_fixed c t : is_white c = false -> skip_white (String c t) = String c t.
Proof. intros H. simpl. by rewrite H. Qed.

Lemma trimEnd_head c t :
  is_white c = false -> exists t', Config.trimEnd (String c t) = String c t'.
Proof. intros H. simpl. rewrite H. destruct (Config.trimEnd t); eauto. Qed.

Lemma trimEnd_idem s : Config.trimEnd (Config.trimEnd s) = Config.trimEnd s.
Proof.
  induction s as [|c s IH]; [done|]. simpl.
  destruct (Config.trimEnd s) as [|a t] eqn:E.
  - destruct (is_white c) eqn:Hc; [done|]. simpl. by rewrite Hc.
  - simpl. simpl in IH. rewrite IH. done.
Qed.

Lemma trim_idem s : Config.trim (Config.trim s) = Config.trim s.
Proof.
  unfold Config.trim. destruct (skip_white s) as [|c t] eqn:E; [done|].
  pose proof (skip_white_head _ _ _ E) as Hc.
  destruct (trimEnd_head c t Hc) as [t' Ht]. rewrite Ht.
  rewrite (skip_white_fixed c t' Hc), <- Ht. apply trimEnd_idem.
Qed.

Lemma split_length c s :
  length (split c s) = S (length (filter (fun a => a = c) (list_ascii_of_string s))).
Proof.
  induction s as [|a s IH]; [done|]. simpl. rewrite filter_cons.
  destruct (decide (a = c)); simpl.
  - by rewrite IH.
  - rewrite <- IH. by destruct (split c s).
Qed.

(** X25. The allowed origins are clean: when [CORS_ORIGINS] is set and not
    empty there is one origin per comma-separated entry and none of them
    has white space at either end (trimming it again changes nothing);
    when it is unset or empty the three local origins are used. *)
Theorem corsOrigins_trimmed (env : gmap string string) :
  (forall v, env !! "CORS_ORIGINS" = Some v -> v <> EmptyString ->
     length (Config.corsOrigins env)
     = S (length (filter (fun a => a = ","%char) (list_ascii_of_string v)))
     /\ (forall o, o ∈ Config.corsOrigins env -> Config.trim o = o))
  /\ (env !! "CORS_ORIGINS" = None \/ env !! "CORS_ORIGINS" = Some EmptyString ->
      Config.corsOrigins env
      = ["http://localhost"; "http://localhost:3003"; "http://localhost:5173"]).
Proof.
  unfold Config.corsOrigins. split.
  - intros v -> Hv. unfold falsy. rewrite decide_False by done. split.
    + by rewrite length_fmap, split_length.
    + intros o (w & -> & _)%list_elem_of_fmap. apply trim_idem.
  - by intros [-> | ->].
Qed.

Lemma corsOrigins_trimmed_witness :
  Config.corsOrigins {["CORS_ORIGINS" := "https://a.example , https://b.example"]}
  = ["https://a.example"; "https://b.example"]
  /\ length (Config.corsOrigins
               {["CORS_ORIGINS" := "https://a.example , https://b.example"]}) = 2%nat.
Proof.
  split; [reflexivity|].
  apply (proj1 (corsOrigins_trimmed
                  {["CORS_ORIGINS" := "https://a.example , https://b.example"]})
           "https://a.example , https://b.example"); [reflexivity|done].
Defined.
